(** * The chat session controller of ia-ju

    A shallow embedding of the two [App] components of the repository:
    - [src/frontend/src/App.jsx] (module [Frontend]), and
    - the component that follows the Docker directives in [src/Dockerfile]
      (module [Dockerfile]).

    A React function component is modelled by its hook state ([State]), its
    event handlers as programs in a small resumption monad ([Prog]) whose
    constructors are the effects the handlers perform (state setters, console
    output, [fetch]) and the two [await] points of [sendMessage], and a
    scheduler ([step]) that delivers DOM events and promise settlements one
    at a time.  A handler runs without interruption up to its next [await];
    React commits the batched updates of a discrete event before the next
    event is delivered, so the closure a handler runs in is the state of the
    world at the time of the event. *)

From Stdlib Require Import NArith List String Ascii PrimFloat.
From stdpp Require Import base option list pretty.

Set Default Proof Using "Type".

(** ** JavaScript data *)

(** A JavaScript string is a sequence of UTF-16 code units. *)
Definition jsstring := list N.

(** The string literals of the source are ASCII; [js] reads one off a Rocq
    string literal, one code unit per character. *)
Definition js (s : string) : jsstring :=
  map N_of_ascii (list_ascii_of_string s).

(** ECMAScript [WhiteSpace] and [LineTerminator] code points, the ones
    [String.prototype.trim] strips: TAB, LF, VT, FF, CR, SP, NBSP, the
    category Zs, LS, PS and the byte order mark. *)
Definition is_white_space (c : N) : bool :=
  existsb (N.eqb c)
    [0x0009; 0x000A; 0x000B; 0x000C; 0x000D; 0x0020; 0x00A0; 0x1680;
     0x2028; 0x2029; 0x202F; 0x205F; 0x3000; 0xFEFF]%N
  || (0x2000 <=? c)%N && (c <=? 0x200A)%N.

Fixpoint trimStart (s : jsstring) : jsstring :=
  match s with
  | [] => []
  | c :: s' => if is_white_space c then trimStart s' else s
  end.

Definition trimEnd (s : jsstring) : jsstring := rev (trimStart (rev s)).

(** [String.prototype.trim] *)
Definition trim (s : jsstring) : jsstring := trimEnd (trimStart s).

(** [ToBoolean] on a string: only the empty string is falsy. *)
Definition ToBoolean (s : jsstring) : bool :=
  match s with
  | [] => false
  | _ :: _ => true
  end.

(** JavaScript values, as far as the component handles them: the results of
    [JSON.parse] (numbers are IEEE 754 doubles; an object keeps its members
    in source order) and [undefined]. *)
#[warnings="-register-all"]
Inductive JsVal : Type :=
  | Undefined
  | Null
  | Boolean (b : bool)
  | Number (x : float)
  | String (s : jsstring)
  | Array (elems : list JsVal)
  | Object (members : list (jsstring * JsVal)).

(** An [Error] object: its [name] ("Error", "TypeError", "SyntaxError") and
    its [message]. *)
Record JsError : Type := mkError { err_name : jsstring; err_message : jsstring }.

Definition Error (msg : jsstring) : JsError := mkError (js "Error") msg.
Definition TypeError (msg : jsstring) : JsError := mkError (js "TypeError") msg.

(** The own property [key] of an object built by [JSON.parse]: of duplicate
    keys the last one wins. *)
Fixpoint own_property (key : jsstring) (members : list (jsstring * JsVal))
  : option JsVal :=
  match members with
  | [] => None
  | (k, v) :: rest =>
      match own_property key rest with
      | Some v' => Some v'
      | None => if bool_decide (k = key) then Some v else None
      end
  end.

(** The member access [data.response].  On [undefined] and [null] it throws
    a [TypeError] (the message is the engine's).  [response] is no property
    of [Boolean.prototype], [Number.prototype], [String.prototype],
    [Array.prototype] or [Object.prototype], neither an array index, so the
    access yields [undefined] unless [data] is an object with that key. *)
Definition member_response (data : JsVal) : JsVal + JsError :=
  match data with
  | Undefined =>
      inr (TypeError (js "Cannot read properties of undefined (reading 'response')"))
  | Null =>
      inr (TypeError (js "Cannot read properties of null (reading 'response')"))
  | Object members => inl (default Undefined (own_property (js "response") members))
  | Boolean _ | Number _ | String _ | Array _ => inl Undefined
  end.

(** ** Browser objects *)

(** A [File] chosen in a file input. *)
Record File : Type := mkFile { file_name : jsstring; file_bytes : list N }.

(** The body handed to [fetch]: the text [JSON.stringify] makes of a value,
    kept as the value it serialises. *)
Inductive BodyInit : Type :=
  | JSON_stringify (v : JsVal).

(** The arguments of a [fetch] call. *)
Record Request : Type := mkRequest {
  url : jsstring;
  method : jsstring;
  headers : list (jsstring * jsstring);
  body : BodyInit
}.

(** What a [fetch] promise is fulfilled with: the HTTP status, and what the
    promise of [response.json()] settles with once the body is read: the
    parsed value, or the error of a body that cannot be read or parsed. *)
Record Response : Type := mkResponse {
  status : N;
  json_settles : JsVal + JsError
}.

(** [response.ok]: the status is in the range 200-299. *)
Definition ok (response : Response) : bool :=
  (200 <=? status response)%N && (status response <=? 299)%N.

(** ** The component state *)

(** An entry of [messages]: [{ sender, text }]. *)
Record Message : Type := mkMessage { sender : jsstring; text : JsVal }.

(** The four [useState] hooks of [App]. *)
Record State : Type := mkState {
  messages : list Message;
  input : jsstring;
  isLoading : bool;
  selectedFile : option File    (* [null] is [None] *)
}.

(** [useState([])], [useState('')], [useState(false)], [useState(null)] *)
Definition initial_state : State :=
  {| messages := []; input := []; isLoading := false; selectedFile := None |}.

(** ** Effects and programs *)

(** What a handler does to the outside: the hook setters ([setMessages] is
    always called with an updater function), the console, and the call of
    [fetch]. *)
Inductive Effect : Type :=
  | SetMessages (updater : list Message → list Message)
  | SetInput (value : jsstring)
  | SetIsLoading (value : bool)
  | SetSelectedFile (file : File)
  | ConsoleError (label : jsstring) (error : JsError)
  | ConsoleLog (label : jsstring) (value : jsstring)
  | Fetch (request : Request).

(** A handler: it returns, throws, performs an effect and goes on, or is
    suspended at an [await] until the promise it waits for is settled, with a
    value ([inl]) or a rejection ([inr]). *)
Inductive Prog (A : Type) : Type :=
  | Ret (a : A)
  | Throw (error : JsError)
  | Act (e : Effect) (k : Prog A)
  | AwaitFetch (request : Request) (k : Response + JsError → Prog A)
  | AwaitJson (response : Response) (k : JsVal + JsError → Prog A).

Arguments Ret {A} a.
Arguments Throw {A} error.
Arguments Act {A} e k.
Arguments AwaitFetch {A} request k.
Arguments AwaitJson {A} response k.

Fixpoint prog_bind {A B : Type} (f : A → Prog B) (m : Prog A) : Prog B :=
  match m with
  | Ret a => f a
  | Throw error => Throw error
  | Act e k => Act e (prog_bind f k)
  | AwaitFetch request k => AwaitFetch request (λ r, prog_bind f (k r))
  | AwaitJson response k => AwaitJson response (λ r, prog_bind f (k r))
  end.

#[export] Instance prog_ret : MRet Prog := @Ret.
#[export] Instance prog_mbind : MBind Prog := @prog_bind.

(** [try { body } catch (error) { handler error }] *)
Fixpoint try_catch {A : Type} (body : Prog A) (handler : JsError → Prog A)
  : Prog A :=
  match body with
  | Ret a => Ret a
  | Throw error => handler error
  | Act e k => Act e (try_catch k handler)
  | AwaitFetch request k => AwaitFetch request (λ r, try_catch (k r) handler)
  | AwaitJson response k => AwaitJson response (λ r, try_catch (k r) handler)
  end.

(** [try { body } finally { finalizer }]: the finalizer runs whichever way
    the body completes, and the body's completion stands. *)
Fixpoint try_finally {A : Type} (body : Prog A) (finalizer : Prog unit)
  : Prog A :=
  match body with
  | Ret a => finalizer ;; Ret a
  | Throw error => finalizer ;; Throw error
  | Act e k => Act e (try_finally k finalizer)
  | AwaitFetch request k => AwaitFetch request (λ r, try_finally (k r) finalizer)
  | AwaitJson response k => AwaitJson response (λ r, try_finally (k r) finalizer)
  end.

Definition perform (e : Effect) : Prog unit := Act e (Ret tt).

Definition setMessages (updater : list Message → list Message) : Prog unit :=
  perform (SetMessages updater).
Definition setInput (value : jsstring) : Prog unit := perform (SetInput value).
Definition setIsLoading (value : bool) : Prog unit := perform (SetIsLoading value).
Definition setSelectedFile (file : File) : Prog unit :=
  perform (SetSelectedFile file).
Definition console_error (label : jsstring) (error : JsError) : Prog unit :=
  perform (ConsoleError label error).
Definition console_log (label : jsstring) (value : jsstring) : Prog unit :=
  perform (ConsoleLog label value).

(** [await p]: the value the promise is fulfilled with, or its rejection
    thrown. *)
Definition settled {A : Type} (r : A + JsError) : Prog A :=
  match r with
  | inl a => Ret a
  | inr error => Throw error
  end.

(** [await fetch(url, init)] *)
Definition await_fetch (request : Request) : Prog Response :=
  AwaitFetch request settled.

(** [await response.json()] *)
Definition await_json (response : Response) : Prog JsVal :=
  AwaitJson response settled.

(** ** src/frontend/src/App.jsx *)

Module Frontend.

Definition API_BASE_URL : jsstring := js "/api".

(** [sendMessage], in the closure of the render whose state is [r]. *)
Definition sendMessage (r : State) : Prog unit :=
  if negb (ToBoolean (trim (input r))) then Ret tt else
  let userMessage := {| sender := js "user"; text := String (input r) |} in
  setMessages (λ prevMessages, prevMessages ++ [userMessage]) ;;
  setInput [] ;;                               (* setInput('') *)
  setIsLoading true ;;
  try_finally
    (try_catch
       (response ← await_fetch
          {| url := API_BASE_URL ++ js "/chat";
             method := js "POST";
             headers := [(js "Content-Type", js "application/json")];
             body := JSON_stringify
                       (Object [(js "user_message", text userMessage)]) |};
        (if negb (ok response)
         then Throw (Error (js "Erro de HTTP: " ++ js (pretty (status response))))
         else Ret tt) ;;
        data ← await_json response;
        data_response ← settled (member_response data);
        let botMessage := {| sender := js "bot"; text := data_response |} in
        setMessages (λ prevMessages, prevMessages ++ [botMessage]))
       (λ error,
          console_error (js "Erro ao enviar mensagem:") error ;;
          let errorMessage :=
            {| sender := js "bot";
               text := String (js "Desculpe, ocorreu um erro ao se conectar com o servidor.") |} in
          setMessages (λ prevMessages, prevMessages ++ [errorMessage])))
    (setIsLoading false).

(** [handleKeyDown]: [event.key] is [key]. *)
Definition handleKeyDown (r : State) (key : jsstring) : Prog unit :=
  if bool_decide (key = js "Enter") && negb (isLoading r)
  then sendMessage r
  else Ret tt.

(** [handleFileChange]: [event.target.files] is [files]. *)
Definition handleFileChange (r : State) (files : list File) : Prog unit :=
  match files !! 0%nat with
  | Some file =>
      setSelectedFile file ;;
      console_log (js "Arquivo selecionado:") (file_name file)
  | None => Ret tt
  end.

End Frontend.

(** ** src/Dockerfile, after the Docker directives *)

Module Dockerfile.

(** This [App] has the three hooks [messages], [input] and [isLoading]; it
    neither reads nor sets the fourth field of [State]. *)

Definition API_URL : jsstring := js "http://localhost:8000".

Definition sendMessage (r : State) : Prog unit :=
  if negb (ToBoolean (trim (input r))) then Ret tt else
  let userMessage := {| sender := js "user"; text := String (input r) |} in
  setMessages (λ prevMessages, prevMessages ++ [userMessage]) ;;
  setInput [] ;;                               (* setInput('') *)
  setIsLoading true ;;
  try_finally
    (try_catch
       (response ← await_fetch
          {| url := API_URL ++ js "/chat";
             method := js "POST";
             headers := [(js "Content-Type", js "application/json")];
             body := JSON_stringify
                       (Object [(js "message", String (input r))]) |};
        (if negb (ok response)
         then Throw (Error (js "Erro de HTTP: " ++ js (pretty (status response))))
         else Ret tt) ;;
        data ← await_json response;
        data_response ← settled (member_response data);
        let botMessage := {| sender := js "bot"; text := data_response |} in
        setMessages (λ prevMessages, prevMessages ++ [botMessage]))
       (λ error,
          console_error (js "Erro ao enviar mensagem:") error ;;
          let errorMessage :=
            {| sender := js "bot";
               text := String (js "Desculpe, ocorreu um erro ao se conectar com o servidor.") |} in
          setMessages (λ prevMessages, prevMessages ++ [errorMessage])))
    (setIsLoading false).

Definition handleKeyDown (r : State) (key : jsstring) : Prog unit :=
  if bool_decide (key = js "Enter") && negb (isLoading r)
  then sendMessage r
  else Ret tt.

End Dockerfile.

(** ** The page: rendered controls, events, scheduling *)

(** What the markup of a component binds to its controls.  Both variants bind
    [onChange] of the text input to [(e) => setInput(e.target.value)] and
    render the text input and the send button with [disabled={isLoading}];
    only App.jsx renders a file input. *)
Record Component : Type := mkComponent {
  onClick : State → Prog unit;                  (* the send button *)
  onKeyDown : State → jsstring → Prog unit;     (* the text input *)
  onFileChange : option (State → list File → Prog unit)
}.

Definition FrontendApp : Component :=
  {| onClick := Frontend.sendMessage;
     onKeyDown := Frontend.handleKeyDown;
     onFileChange := Some Frontend.handleFileChange |}.

Definition DockerfileApp : Component :=
  {| onClick := Dockerfile.sendMessage;
     onKeyDown := Dockerfile.handleKeyDown;
     onFileChange := None |}.

(** A call of [sendMessage] suspended at one of its two [await]s. *)
Inductive Suspended : Type :=
  | OnFetch (k : Response + JsError → Prog unit)
  | OnJson (response : Response) (k : JsVal + JsError → Prog unit).

(** The page: the committed hook state, the suspended calls in the order
    they were suspended, and everything the handlers did so far, in order. *)
Record World : Type := mkWorld {
  state : State;
  pending : list Suspended;
  log : list Effect
}.

Definition initial_world : World :=
  {| state := initial_state; pending := []; log := [] |}.

Definition apply_effect (e : Effect) (s : State) : State :=
  match e with
  | SetMessages updater =>
      {| messages := updater (messages s); input := input s;
         isLoading := isLoading s; selectedFile := selectedFile s |}
  | SetInput value =>
      {| messages := messages s; input := value;
         isLoading := isLoading s; selectedFile := selectedFile s |}
  | SetIsLoading value =>
      {| messages := messages s; input := input s;
         isLoading := value; selectedFile := selectedFile s |}
  | SetSelectedFile file =>
      {| messages := messages s; input := input s;
         isLoading := isLoading s; selectedFile := Some file |}
  | ConsoleError _ _ | ConsoleLog _ _ | Fetch _ => s
  end.

(** Runs a program up to its end or its next [await].  [fetch] issues its
    request when it is called, before the caller is suspended.  A rejection
    nobody handles leaves the page as it is.

    [exec] gives the hooks their new values; it does not render.  Whether
    React can render the page from them is [renders], below: when it
    cannot (an entry whose text is an object), React throws and, there being
    no error boundary, unmounts [App].  What the hooks hold is then shown
    nowhere: a statement about the page a turn leaves after a reply of any
    type carries the condition that the reply renders. *)
Fixpoint exec (p : Prog unit) (w : World) : World :=
  match p with
  | Ret _ => w
  | Throw _ => w
  | Act e k =>
      exec k {| state := apply_effect e (state w);
                pending := pending w;
                log := log w ++ [e] |}
  | AwaitFetch request k =>
      {| state := state w;
         pending := pending w ++ [OnFetch k];
         log := log w ++ [Fetch request] |}
  | AwaitJson response k =>
      {| state := state w;
         pending := pending w ++ [OnJson response k];
         log := log w |}
  end.

Inductive Event : Type :=
  | Click                                   (* on the send button *)
  | KeyDown (key : jsstring)                (* in the text input *)
  | Change (value : jsstring)               (* the text input edited *)
  | FileChange (files : list File)          (* a choice in the file input *)
  | FetchSettled (i : nat) (r : Response + JsError)
      (* the [fetch] promise suspended call [i] waits for is settled *)
  | JsonSettled (i : nat).
      (* the [response.json()] promise call [i] waits for is settled *)

Definition resume (i : nat) (w : World) : World :=
  {| state := state w; pending := delete i (pending w); log := log w |}.

(** One event.  React delivers no click to a button rendered with
    [disabled]; that is the only guard of the send button.  The events of
    the text input go to their handlers whatever [disabled] says:
    [handleKeyDown] tests [isLoading] itself, and the [onChange] handler
    tests nothing and sets the input. *)
Definition step (c : Component) (w : World) (ev : Event) : World :=
  match ev with
  | Click =>
      if isLoading (state w) then w else exec (onClick c (state w)) w
  | KeyDown key => exec (onKeyDown c (state w) key) w
  | Change value => exec (setInput value) w
  | FileChange files =>
      match onFileChange c with
      | Some handler => exec (handler (state w) files) w
      | None => w
      end
  | FetchSettled i r =>
      match pending w !! i with
      | Some (OnFetch k) => exec (k r) (resume i w)
      | _ => w
      end
  | JsonSettled i =>
      match pending w !! i with
      | Some (OnJson response k) => exec (k (json_settles response)) (resume i w)
      | _ => w
      end
  end.

Definition run (c : Component) (w : World) (evs : list Event) : World :=
  foldl (step c) w evs.

(** ** Vocabulary of the statements *)

Definition user_entry (t : jsstring) : Message :=
  {| sender := js "user"; text := String t |}.

Definition bot_entry (v : JsVal) : Message :=
  {| sender := js "bot"; text := v |}.

(** The text the user reads when a turn fails. *)
Definition apology : jsstring :=
  js "Desculpe, ocorreu um erro ao se conectar com o servidor.".

(** The request of a turn, up to its endpoint and the name of the field
    that carries the text. *)
Definition chat_request (endpoint field t : jsstring) : Request :=
  {| url := endpoint;
     method := js "POST";
     headers := [(js "Content-Type", js "application/json")];
     body := JSON_stringify (Object [(field, String t)]) |}.

(** No turn is in flight. *)
Definition Idle (w : World) : Prop :=
  isLoading (state w) = false ∧ pending w = [].

(** The page after the user typed [t] into the text input of a page that
    was just loaded. *)
Definition typed (t : jsstring) : World :=
  {| state := {| messages := []; input := t; isLoading := false;
                 selectedFile := None |};
     pending := []; log := [] |}.

(** The gateway outcomes the specification calls a transport error: the
    [fetch] promise is rejected, the status is outside 200-299, or the body
    cannot be read as JSON. *)
Definition transport_error (o : Response + JsError) : bool :=
  match o with
  | inr _ => true
  | inl response =>
      negb (ok response)
      || match json_settles response with inr _ => true | inl _ => false end
  end.

Definition is_fetch (e : Effect) : bool :=
  match e with Fetch _ => true | _ => false end.

Definition is_set_input (e : Effect) : bool :=
  match e with SetInput _ => true | _ => false end.

(** What the assistant entry of a turn reads, by the outcome of the gateway
    call. *)
Definition turn_reply (o : Response + JsError) : JsVal :=
  match o with
  | inr _ => String apology
  | inl response =>
      if ok response then
        match json_settles response with
        | inl data =>
            match member_response data with
            | inl data_response => data_response
            | inr _ => String apology
            end
        | inr _ => String apology
        end
      else String apology
  end.

(** The events of one turn: the submit, then the two promises settle.  When
    [sendMessage] is over before it reads the body, the last event finds
    nothing to resume. *)
Definition turn (o : Response + JsError) : list Event :=
  [Click; FetchSettled 0 o; JsonSettled 0].

(** The page while the text "Hello" is on its way. *)
Definition awaiting_reply : World := step FrontendApp (typed (js "Hello")) Click.

(** ** Programs that only append to the transcript *)

(** An effect that leaves the entries of the transcript where they are. *)
Definition appending (e : Effect) : Prop :=
  match e with
  | SetMessages updater => ∀ ms, ms `prefix_of` updater ms
  | _ => True
  end.

(** A program all of whose effects, now and after any [await], are
    [appending]. *)
Inductive Appends {A : Type} : Prog A → Prop :=
  | Appends_Ret a : Appends (Ret a)
  | Appends_Throw error : Appends (Throw error)
  | Appends_Act e k : appending e → Appends k → Appends (Act e k)
  | Appends_AwaitFetch request k :
      (∀ r, Appends (k r)) → Appends (AwaitFetch request k)
  | Appends_AwaitJson response k :
      (∀ r, Appends (k r)) → Appends (AwaitJson response k).

Definition appends_when_resumed (t : Suspended) : Prop :=
  match t with
  | OnFetch k => ∀ r, Appends (k r)
  | OnJson _ k => ∀ r, Appends (k r)
  end.

(** ** Programs that answer a turn *)

(** What is left of a turn once its request is out.  [Replies false p]: the
    program [p] appends one bot entry and then lowers the busy flag, on every
    path; [Replies true p]: the entry is there and only the flag is left. *)
Inductive Replies : bool → Prog unit → Prop :=
  | Replies_finally :
      Replies true (Act (SetIsLoading false) (Ret tt))
  | Replies_push updater m k :
      (∀ ms, updater ms = ms ++ [m]) →
      sender m = js "bot" →
      Replies true k →
      Replies false (Act (SetMessages updater) k)
  | Replies_console b label error k :
      Replies b k → Replies b (Act (ConsoleError label error) k)
  | Replies_json response k :
      (∀ r, Replies false (k r)) → Replies false (AwaitJson response k).

Definition replies_when_resumed (t : Suspended) : Prop :=
  match t with
  | OnFetch k => ∀ r, Replies false (k r)
  | OnJson _ k => ∀ r, Replies false (k r)
  end.

(** A transcript made of whole turns: a user entry, then a bot entry. *)
Inductive paired : list Message → Prop :=
  | paired_nil : paired []
  | paired_turn ms u b :
      paired ms → sender u = js "user" → sender b = js "bot" →
      paired (ms ++ [u; b]).

(** The two shapes of the page: no turn in flight, the flag down and the
    transcript made of whole turns; or one turn in flight, the flag up and
    the transcript ending with the user entry that waits for its reply. *)
Inductive consistent (w : World) : Prop :=
  | consistent_idle :
      isLoading (state w) = false →
      pending w = [] →
      paired (messages (state w)) →
      consistent w
  | consistent_busy ms u t :
      isLoading (state w) = true →
      pending w = [t] →
      replies_when_resumed t →
      messages (state w) = ms ++ [u] →
      paired ms →
      sender u = js "user" →
      consistent w.

(** ** Programs that agree up to their requests *)

(** The requests the two variants issue for the same text: they differ in
    the endpoint and in the name of the field, and in nothing else. *)
Inductive same_turn_request : Request → Request → Prop :=
  | same_turn_request_intro (t : jsstring) :
      same_turn_request
        (chat_request (js "/api/chat") (js "user_message") t)
        (chat_request (js "http://localhost:8000/chat") (js "message") t).

(** Two programs that do the same things in the same order, up to the
    requests they fetch. *)
Inductive Similar {A : Type} : Prog A → Prog A → Prop :=
  | Similar_Ret a : Similar (Ret a) (Ret a)
  | Similar_Throw error : Similar (Throw error) (Throw error)
  | Similar_Act e k1 k2 :
      is_fetch e = false → Similar k1 k2 → Similar (Act e k1) (Act e k2)
  | Similar_AwaitFetch request1 request2 k1 k2 :
      same_turn_request request1 request2 →
      (∀ r, Similar (k1 r) (k2 r)) →
      Similar (AwaitFetch request1 k1) (AwaitFetch request2 k2)
  | Similar_AwaitJson response k1 k2 :
      (∀ r, Similar (k1 r) (k2 r)) →
      Similar (AwaitJson response k1) (AwaitJson response k2).

Inductive similar_when_resumed : Suspended → Suspended → Prop :=
  | similar_OnFetch k1 k2 :
      (∀ r, Similar (k1 r) (k2 r)) →
      similar_when_resumed (OnFetch k1) (OnFetch k2)
  | similar_OnJson response k1 k2 :
      (∀ r, Similar (k1 r) (k2 r)) →
      similar_when_resumed (OnJson response k1) (OnJson response k2).

(** The hooks the two variants share. *)
Definition chat_state (s : State) : list Message * jsstring * bool :=
  (messages s, input s, isLoading s).

(** The requests fetched so far, in order. *)
Definition requests (l : list Effect) : list Request :=
  omap (λ e, match e with Fetch request => Some request | _ => None end) l.

(** The hook setters among the effects that a variant without a file input
    can perform. *)
Definition chat_effect (e : Effect) : bool :=
  match e with
  | SetSelectedFile _ | ConsoleLog _ _ | Fetch _ => false
  | _ => true
  end.

Record related (w1 w2 : World) : Prop := mkRelated {
  related_state : chat_state (state w1) = chat_state (state w2);
  related_pending : Forall2 similar_when_resumed (pending w1) (pending w2);
  related_requests : Forall2 same_turn_request (requests (log w1)) (requests (log w2));
  related_effects : filter chat_effect (log w1) = filter chat_effect (log w2)
}.

(** ** The markup *)

(** The icons of lucide-react the bubbles use. *)
Inductive Icon : Type := Bot | User.

(** The values of the expressions in braces of one element of
    [messages.map(...)]; the rest of the element is constant. *)
Record Bubble : Type := mkBubble {
  bubble_key : nat;               (* key={index} *)
  row_className : jsstring;       (* the outer div *)
  bubble_className : jsstring;    (* the inner div *)
  avatar_className : jsstring;    (* the div around the icon *)
  avatar : Icon;
  bubble_child : JsVal            (* the child {msg.text} of the paragraph *)
}.

(** The values of the expressions in braces of the chat column. *)
Record ChatColumn : Type := mkChatColumn {
  placeholder : bool;             (* the invitation to send a message *)
  bubbles : list Bubble;
  typing_indicator : bool;        (* the three bouncing dots *)
  input_value : jsstring;
  input_disabled : bool;
  send_className : jsstring;
  send_disabled : bool
}.

(** App.jsx has a second column, whose one expression in braces is the
    line about the file selected. *)
Record View : Type := mkView {
  chat : ChatColumn;
  file_label : jsstring
}.

(** The [return (...)] of [App] in src/frontend/src/App.jsx. *)
Module FrontendMarkup.

Definition render_message (index : nat) (msg : Message) : Bubble :=
  {| bubble_key := index;
     row_className :=
       js "flex " ++
       (if bool_decide (sender msg = js "user")
        then js "justify-end" else js "justify-start");
     bubble_className :=
       js "flex items-start gap-3 p-4 rounded-3xl max-w-[80%] " ++
       (if bool_decide (sender msg = js "user")
        then js "bg-blue-600 text-white rounded-br-none"
        else js "bg-slate-700 text-slate-200 rounded-bl-none");
     avatar_className :=
       if bool_decide (sender msg = js "bot")
       then js "p-2 bg-slate-600 rounded-full"
       else js "p-2 bg-blue-700 rounded-full";
     avatar := if bool_decide (sender msg = js "bot") then Bot else User;
     bubble_child := text msg |}.

Definition render (s : State) : View :=
  {| chat :=
       {| placeholder := bool_decide (length (messages s) = 0) && negb (isLoading s);
          bubbles := imap render_message (messages s);
          typing_indicator := isLoading s;
          input_value := input s;
          input_disabled := isLoading s;
          send_className :=
            js "p-3 rounded-full transition-colors " ++
            (if isLoading s
             then js "bg-slate-500 cursor-not-allowed"
             else js "bg-blue-600 hover:bg-blue-700");
          send_disabled := isLoading s |};
     file_label :=
       match selectedFile s with
       | Some file => js "Arquivo selecionado: " ++ file_name file
       | None => js "Nenhum arquivo selecionado."
       end |}.

End FrontendMarkup.

(** The [return (...)] of [App] in src/Dockerfile. *)
Module DockerfileMarkup.

Definition render_message (index : nat) (msg : Message) : Bubble :=
  {| bubble_key := index;
     row_className :=
       js "flex " ++
       (if bool_decide (sender msg = js "user")
        then js "justify-end" else js "justify-start");
     bubble_className :=
       js "flex items-start gap-3 p-4 rounded-3xl max-w-[80%] " ++
       (if bool_decide (sender msg = js "user")
        then js "bg-blue-600 text-white rounded-br-none"
        else js "bg-slate-700 text-slate-200 rounded-bl-none");
     avatar_className :=
       if bool_decide (sender msg = js "bot")
       then js "p-2 bg-slate-600 rounded-full"
       else js "p-2 bg-blue-700 rounded-full";
     avatar := if bool_decide (sender msg = js "bot") then Bot else User;
     bubble_child := text msg |}.

Definition render (s : State) : ChatColumn :=
  {| placeholder := bool_decide (length (messages s) = 0) && negb (isLoading s);
     bubbles := imap render_message (messages s);
     typing_indicator := isLoading s;
     input_value := input s;
     input_disabled := isLoading s;
     send_className :=
       js "p-3 rounded-full transition-colors " ++
       (if isLoading s
        then js "bg-slate-500 cursor-not-allowed"
        else js "bg-blue-600 hover:bg-blue-700");
     send_disabled := isLoading s |}.

End DockerfileMarkup.

(** What React makes of a value used as a child of an element. *)
Inductive TextNode : Type :=
  | Chars (s : jsstring)
  | NumberToString (x : float).

(** [undefined], [null] and booleans render nothing, strings and numbers
    render as text, an array renders its elements one after the other, and
    an object that is no React element makes React throw ("Objects are not
    valid as a React child"): [None].  No value read from JSON is a React
    element. *)
Fixpoint React_child (v : JsVal) : option (list TextNode) :=
  match v with
  | Undefined | Null | Boolean _ => Some []
  | Number x => Some [NumberToString x]
  | String s => Some [Chars s]
  | Array elems =>
      (fix children (l : list JsVal) : option (list TextNode) :=
         match l with
         | [] => Some []
         | e :: l' =>
             match React_child e, children l' with
             | Some nodes, Some nodes' => Some (nodes ++ nodes')
             | _, _ => None
             end
         end) elems
  | Object _ => None
  end.

(** React can commit the view. *)
Definition renders (v : View) : bool :=
  forallb (λ b, bool_decide (is_Some (React_child (bubble_child b))))
          (bubbles (chat v)).

(** The two looks of a bubble. *)
Definition user_bubble (index : nat) (child : JsVal) : Bubble :=
  {| bubble_key := index;
     row_className := js "flex justify-end";
     bubble_className :=
       js "flex items-start gap-3 p-4 rounded-3xl max-w-[80%] bg-blue-600 text-white rounded-br-none";
     avatar_className := js "p-2 bg-blue-700 rounded-full";
     avatar := User;
     bubble_child := child |}.

Definition bot_bubble (index : nat) (child : JsVal) : Bubble :=
  {| bubble_key := index;
     row_className := js "flex justify-start";
     bubble_className :=
       js "flex items-start gap-3 p-4 rounded-3xl max-w-[80%] bg-slate-700 text-slate-200 rounded-bl-none";
     avatar_className := js "p-2 bg-slate-600 rounded-full";
     avatar := Bot;
     bubble_child := child |}.

(** ** The history of a page *)

(** The request App.jsx issues for the text [t], and the one of the
    Dockerfile variant. *)
Definition api_request (t : jsstring) : Request :=
  chat_request (js "/api/chat") (js "user_message") t.

Definition localhost_request (t : jsstring) : Request :=
  chat_request (js "http://localhost:8000/chat") (js "message") t.

(** The transcript of the turns that are over: for each, the text sent and
    the text of the reply. *)
Definition transcript (turns : list (jsstring * JsVal)) : list Message :=
  concat ((λ tv, [user_entry tv.1; bot_entry tv.2]) <$> turns).

(** The entry of the turn in flight, if there is one. *)
Definition waiting_entry (inflight : option jsstring) : list Message :=
  option_list (user_entry <$> inflight).

(** The texts of the user entries of a transcript. *)
Definition sent_texts (ms : list Message) : list jsstring :=
  omap (λ m, if bool_decide (sender m = js "user")
             then match text m with String t => Some t | _ => None end
             else None) ms.

(** The page whose turns so far are [turns], with the text [inflight] on
    its way if there is one. *)
Record tracked (turns : list (jsstring * JsVal)) (inflight : option jsstring)
    (w : World) : Prop := mkTracked {
  tracked_messages :
    messages (state w) = transcript turns ++ waiting_entry inflight;
  tracked_requests :
    requests (log w) = api_request <$> (turns.*1 ++ option_list inflight);
  tracked_nonblank :
    Forall (λ t, trim t ≠ []) (turns.*1 ++ option_list inflight);
  tracked_busy :
    isLoading (state w) = match inflight with Some _ => true | None => false end;
  tracked_pending :
    match inflight with
    | Some _ => ∃ t, pending w = [t] ∧ replies_when_resumed t
    | None => pending w = []
    end
}.

(** The file selected after a choice in the file input: the first file
    chosen, or the one before when the choice is empty. *)
Definition choice (ev : Event) (selected : option File) : option File :=
  match ev with
  | FileChange files => from_option Some selected (head files)
  | _ => selected
  end.

Definition last_choice (evs : list Event) : option File :=
  foldl (λ selected ev, choice ev selected) None evs.

(** The events of typing: keys other than Enter, and edits. *)
Definition typing (ev : Event) : bool :=
  match ev with
  | KeyDown key => negb (bool_decide (key = js "Enter"))
  | Change _ => true
  | _ => false
  end.

(** The text in the input after some typing. *)
Definition last_edit (evs : list Event) (current : jsstring) : jsstring :=
  foldl (λ value ev, match ev with Change v => v | _ => value end) current evs.

(** The error a turn hands to [catch], by the outcome of the gateway call:
    the rejection of [fetch], the [Error] thrown on a status that is not a
    success, the rejection of [response.json()], or the [TypeError] of
    reading [response] off [null]. *)
Definition turn_error (o : Response + JsError) : option JsError :=
  match o with
  | inr error => Some error
  | inl response =>
      if ok response then
        match json_settles response with
        | inl data =>
            match member_response data with
            | inl _ => None
            | inr error => Some error
            end
        | inr error => Some error
        end
      else Some (Error (js "Erro de HTTP: " ++ js (pretty (status response))))
  end.

Definition is_console (e : Effect) : bool :=
  match e with ConsoleError _ _ | ConsoleLog _ _ => true | _ => false end.

(** * Proofs *)

Arguments ok : simpl never.
Arguments trim : simpl never.
Arguments member_response : simpl never.
Arguments js : simpl never.
Arguments Frontend.sendMessage : simpl never.
Arguments Dockerfile.sendMessage : simpl never.

(** ** Trimming *)

Lemma trimStart_nil_iff (s : jsstring) :
  trimStart s = [] ↔ forallb is_white_space s = true.
Proof.
  induction s as [|c s IH]; simpl; [done|].
  destruct (is_white_space c); simpl; [exact IH|].
  split; discriminate.
Qed.

Lemma trimStart_head (s : jsstring) :
  match trimStart s with
  | [] => True
  | c :: _ => is_white_space c = false
  end.
Proof.
  induction s as [|c s IH]; simpl; [done|].
  destruct (is_white_space c) eqn:Hc; [exact IH|exact Hc].
Qed.

Lemma forallb_white_rev (s : jsstring) :
  forallb is_white_space (rev s) = true → forallb is_white_space s = true.
Proof.
  rewrite !forallb_forall. intros H c Hc. apply H.
  by apply in_rev in Hc.
Qed.

(** [trim] leaves nothing exactly of the strings that are empty or made of
    white space only. *)
Lemma trim_nil_iff (s : jsstring) :
  trim s = [] ↔ forallb is_white_space s = true.
Proof.
  unfold trim, trimEnd. split.
  - intros H. apply (f_equal (@rev N)) in H. rewrite rev_involutive in H.
    simpl in H. apply trimStart_nil_iff, forallb_white_rev in H.
    apply trimStart_nil_iff.
    pose proof (trimStart_head s) as Hhd.
    destruct (trimStart s) as [|c t]; [done|].
    simpl in H. rewrite Hhd in H. discriminate.
  - intros H. apply trimStart_nil_iff in H. by rewrite H.
Qed.

(** White space outside ASCII is stripped too: NBSP, the ideographic space,
    the byte order mark. *)
Example trim_unicode_space :
  trim [0x00A0; 0x3000; 0x0061; 0x0020; 0x0062; 0xFEFF; 0x000A]%N
  = [0x0061; 0x0020; 0x0062]%N.
Proof. reflexivity. Qed.

Lemma ToBoolean_trim (s : jsstring) :
  trim s ≠ [] → ToBoolean (trim s) = true.
Proof. by destruct (trim s). Qed.

Lemma ToBoolean_blank (s : jsstring) :
  forallb is_white_space s = true → ToBoolean (trim s) = false.
Proof. intros H. apply trim_nil_iff in H. by rewrite H. Qed.

(** ** A submit *)

(** What [sendMessage] does before it is suspended: it is the same whether
    the send button is clicked or Enter is pressed. *)
Lemma keydown_enter_is_click (w : World) :
  step FrontendApp w (KeyDown (js "Enter")) = step FrontendApp w Click.
Proof.
  unfold step; cbn [onClick onKeyDown FrontendApp].
  unfold Frontend.handleKeyDown. rewrite bool_decide_eq_true_2 by done.
  by destruct (isLoading (state w)).
Qed.

Lemma submit_by_enter (w : World) (evs : list Event) :
  run FrontendApp w (KeyDown (js "Enter") :: evs) = run FrontendApp w (Click :: evs).
Proof. unfold run; cbn [foldl]. by rewrite keydown_enter_is_click. Qed.

Ltac submit_valid Hidle Hvalid :=
  unfold step; simpl; rewrite Hidle;
  unfold Frontend.sendMessage, Dockerfile.sendMessage;
  rewrite (ToBoolean_trim _ Hvalid); cbn.

(** C7. When the text input is empty or holds white space only, a submit
    (a click on the send button, Enter in the text input, or a direct call
    of [sendMessage]) does nothing at all: the transcript, the busy flag and
    the pending input stay as they are and no request is issued. *)
Theorem blank_submit_is_noop (w : World) :
  forallb is_white_space (input (state w)) = true →
  Frontend.sendMessage (state w) = Ret tt
  ∧ step FrontendApp w Click = w
  ∧ step FrontendApp w (KeyDown (js "Enter")) = w.
Proof.
  intros Hblank.
  assert (Hsend : Frontend.sendMessage (state w) = Ret tt).
  { unfold Frontend.sendMessage. by rewrite (ToBoolean_blank _ Hblank). }
  assert (Hclick : step FrontendApp w Click = w).
  { unfold step; simpl. rewrite Hsend. by destruct (isLoading (state w)). }
  by rewrite keydown_enter_is_click.
Qed.

Lemma blank_submit_is_noop_witness :
  Frontend.sendMessage (state (typed (js "   "))) = Ret tt
  ∧ step FrontendApp (typed (js "   ")) Click = typed (js "   ")
  ∧ step FrontendApp (typed (js "   ")) (KeyDown (js "Enter")) = typed (js "   ").
Proof. apply (blank_submit_is_noop (typed (js "   "))). reflexivity. Defined.

(** C2, as the code has it.  When the trimmed input is not empty and no turn
    is in flight, a submit appends the user entry whose text is the input as
    typed (not trimmed), clears the pending input, raises the busy flag and
    issues one POST to /api/chat whose body carries that same untrimmed text
    in the field user_message. *)
Theorem valid_submit_sends_raw_input (w : World) :
  isLoading (state w) = false →
  trim (input (state w)) ≠ [] →
  let w' := step FrontendApp w Click in
  messages (state w') = messages (state w) ++ [user_entry (input (state w))]
  ∧ input (state w') = []
  ∧ isLoading (state w') = true
  ∧ selectedFile (state w') = selectedFile (state w)
  ∧ length (pending w') = S (length (pending w))
  ∧ filter is_fetch (log w') =
      filter is_fetch (log w)
      ++ [Fetch (chat_request (js "/api/chat") (js "user_message")
                              (input (state w)))]
  ∧ step FrontendApp w (KeyDown (js "Enter")) = w'.
Proof.
  intros Hidle Hvalid w'. subst w'.
  rewrite keydown_enter_is_click.
  submit_valid Hidle Hvalid.
  rewrite length_app, Nat.add_1_r.
  rewrite !filter_app. simpl. rewrite !app_nil_r.
  done.
Qed.

Lemma valid_submit_sends_raw_input_witness :
  let w' := step FrontendApp (typed (js " hi ")) Click in
  messages (state w') = [] ++ [user_entry (js " hi ")]
  ∧ input (state w') = []
  ∧ isLoading (state w') = true
  ∧ selectedFile (state w') = None
  ∧ length (pending w') = 1
  ∧ filter is_fetch (log w') =
      [] ++ [Fetch (chat_request (js "/api/chat") (js "user_message") (js " hi "))]
  ∧ step FrontendApp (typed (js " hi ")) (KeyDown (js "Enter")) = w'.
Proof.
  apply (valid_submit_sends_raw_input (typed (js " hi "))).
  - reflexivity.
  - vm_compute. discriminate.
Defined.

(** C2 as the specification words it fails: for the input " hi ", whose trim
    is "hi", the entry appended and the text sent are " hi ". *)
Lemma valid_submit_trims_counterexample :
  let w := typed (js " hi ") in
  let w' := step FrontendApp w Click in
  trim (input (state w)) = js "hi"
  ∧ messages (state w') ≠ messages (state w) ++ [user_entry (trim (input (state w)))]
  ∧ filter is_fetch (log w') ≠
      [Fetch (chat_request (js "/api/chat") (js "user_message")
                           (trim (input (state w))))].
Proof. vm_compute. repeat split; discriminate. Qed.

(** ** A whole turn *)

Lemma edit_idle (w : World) (t : jsstring) :
  isLoading (state w) = false →
  step FrontendApp w (Change t) =
    {| state := {| messages := messages (state w); input := t;
                   isLoading := false; selectedFile := selectedFile (state w) |};
       pending := pending w;
       log := log w ++ [SetInput t] |}.
Proof. intros Hidle. unfold step. cbn. by rewrite Hidle. Qed.

Lemma submit_effects (w : World) :
  isLoading (state w) = false →
  trim (input (state w)) ≠ [] →
  let w' := step FrontendApp w Click in
  state w' = {| messages := messages (state w) ++ [user_entry (input (state w))];
                input := []; isLoading := true;
                selectedFile := selectedFile (state w) |}
  ∧ length (pending w') = S (length (pending w))
  ∧ log w' = log w ++
      [SetMessages (λ prevMessages, prevMessages ++ [user_entry (input (state w))]);
       SetInput [];
       SetIsLoading true;
       Fetch (chat_request (js "/api/chat") (js "user_message") (input (state w)))].
Proof.
  intros Hidle Hvalid w'. subst w'. submit_valid Hidle Hvalid.
  rewrite length_app, Nat.add_1_r, <- !app_assoc. done.
Qed.

Ltac turn_done :=
  split; [by rewrite <- ?app_assoc|];
  split; [done|];
  eexists; split; [rewrite <- !app_assoc; reflexivity|reflexivity].

(** The page a turn leaves behind, whatever the outcome. *)
Lemma turn_resolves (w : World) (o : Response + JsError) :
  Idle w →
  trim (input (state w)) ≠ [] →
  let w' := run FrontendApp w (turn o) in
  state w' = {| messages := messages (state w)
                            ++ [user_entry (input (state w)); bot_entry (turn_reply o)];
                input := []; isLoading := false;
                selectedFile := selectedFile (state w) |}
  ∧ pending w' = []
  ∧ ∃ rest,
      log w' = log (step FrontendApp w Click) ++ rest
      ∧ forallb (λ e, negb (is_set_input e || is_fetch e)) rest = true.
Proof.
  intros [Hidle Hnone] Hvalid w'. subst w'.
  destruct w as [[ms inp busy sel] pend lg]; simpl in *; subst.
  unfold run, turn; simpl.
  unfold Frontend.sendMessage; cbn [input]; rewrite (ToBoolean_trim _ Hvalid); cbn.
  unfold turn_reply.
  destruct o as [response|error]; cbn.
  - destruct (ok response) eqn:Hok; cbn.
    + destruct (json_settles response) as [data|error]; cbn.
      * destruct (member_response data) as [v|error]; cbn; turn_done.
      * turn_done.
    + turn_done.
  - turn_done.
Qed.

Lemma forallb_imap_child (f : nat → Message → Bubble) (ms : list Message) :
  (∀ i m, bubble_child (f i m) = text m) →
  forallb (λ b, bool_decide (is_Some (React_child (bubble_child b)))) (imap f ms)
  = forallb (λ m, bool_decide (is_Some (React_child (text m)))) ms.
Proof.
  revert f. induction ms as [|m ms IH]; intros f Hf; [done|].
  cbn. rewrite Hf. f_equal. apply IH. intros i m'. apply Hf.
Qed.

Lemma renders_messages (s : State) :
  renders (FrontendMarkup.render s)
  = forallb (λ m, bool_decide (is_Some (React_child (text m)))) (messages s).
Proof.
  unfold renders, FrontendMarkup.render; cbn [chat bubbles].
  by apply forallb_imap_child.
Qed.

(** Two more entries, a user entry and a bot entry: the page renders as
    before if the text of the bot entry is a child React can render. *)
Lemma renders_two_more (s s' : State) (t : jsstring) (v : JsVal) :
  messages s' = messages s ++ [user_entry t; bot_entry v] →
  is_Some (React_child v) →
  renders (FrontendMarkup.render s') = renders (FrontendMarkup.render s).
Proof.
  intros Hms Hv. rewrite !renders_messages, Hms, forallb_app. cbn.
  by rewrite (bool_decide_eq_true_2 _ Hv), !andb_true_r.
Qed.

(** A turn during which the input is edited. *)
Lemma edited_turn_resolves (w : World) (t : jsstring) (o : Response + JsError) :
  Idle w →
  trim (input (state w)) ≠ [] →
  let w1 := run FrontendApp w [Click; Change t] in
  let w2 := run FrontendApp w1 [FetchSettled 0 o; JsonSettled 0] in
  state w1 = {| messages := messages (state w) ++ [user_entry (input (state w))];
                input := t; isLoading := true;
                selectedFile := selectedFile (state w) |}
  ∧ state w2 = {| messages := messages (state w)
                              ++ [user_entry (input (state w)); bot_entry (turn_reply o)];
                  input := t; isLoading := false;
                  selectedFile := selectedFile (state w) |}
  ∧ pending w2 = [].
Proof.
  intros [Hidle Hnone] Hvalid w1 w2. subst w1 w2.
  destruct w as [[ms inp busy sel] pend lg]; simpl in *; subst.
  unfold run; simpl.
  unfold Frontend.sendMessage; cbn [input]; rewrite (ToBoolean_trim _ Hvalid); cbn.
  unfold turn_reply.
  destruct o as [response|error]; cbn; [|by rewrite <- ?app_assoc].
  destruct (ok response) eqn:Hok; cbn; [|by rewrite <- ?app_assoc].
  destruct (json_settles response) as [data|error]; cbn; [|by rewrite <- ?app_assoc].
  destruct (member_response data) as [v|error]; cbn; by rewrite <- ?app_assoc.
Qed.

(** ** One turn, from the submit to the reply *)

(** X17. A valid submit on an idle page, followed by the settlement of the
    gateway call with an outcome whose reply React can render (every
    failure, and every success whose [response] is a string, a number, a
    boolean, [null], absent, or an array of such), leaves the transcript
    exactly two entries longer, the user entry and then one bot entry, the
    busy flag down with nothing in flight, and the page rendering as it did
    before. *)
Theorem turn_adds_two_entries (w : World) (o : Response + JsError) :
  Idle w →
  trim (input (state w)) ≠ [] →
  is_Some (React_child (turn_reply o)) →
  let w' := run FrontendApp w (turn o) in
  length (messages (state w')) = length (messages (state w)) + 2
  ∧ messages (state w') =
      messages (state w) ++ [user_entry (input (state w)); bot_entry (turn_reply o)]
  ∧ isLoading (state w') = false
  ∧ pending w' = []
  ∧ renders (FrontendMarkup.render (state w')) = renders (FrontendMarkup.render (state w)).
Proof.
  intros Hidle Hvalid Hchild w'.
  destruct (turn_resolves w o Hidle Hvalid) as (Hstate & Hpending & _).
  fold w' in Hstate, Hpending. clearbody w'.
  assert (Hms : messages (state w') =
                  messages (state w)
                  ++ [user_entry (input (state w)); bot_entry (turn_reply o)])
    by (by rewrite Hstate).
  split; [rewrite Hms, length_app; by cbn|].
  split; [done|]. split; [by rewrite Hstate|]. split; [done|].
  by apply (renders_two_more _ _ _ _ Hms).
Qed.

Lemma turn_adds_two_entries_witness :
  let o := inr (TypeError (js "Failed to fetch")) in
  let w' := run FrontendApp (typed (js "Hello")) (turn o) in
  length (messages (state w')) = length (messages (state (typed (js "Hello")))) + 2
  ∧ messages (state w') =
      messages (state (typed (js "Hello")))
      ++ [user_entry (input (state (typed (js "Hello")))); bot_entry (turn_reply o)]
  ∧ isLoading (state w') = false
  ∧ pending w' = []
  ∧ renders (FrontendMarkup.render (state w'))
    = renders (FrontendMarkup.render (state (typed (js "Hello")))).
Proof.
  apply (turn_adds_two_entries (typed (js "Hello"))
           (inr (TypeError (js "Failed to fetch")))).
  - split; reflexivity.
  - vm_compute. discriminate.
  - apply (bool_decide_unpack _). reflexivity.
Defined.

(** C4, where the code fails it.  The text "Hello" is submitted and the
    backend answers 200 with the body [{"response": {"text": "Oi"}}].
    [sendMessage] gives the hooks the two entries and lowers the busy flag,
    as on every other path; but the text of the bot entry is an object,
    which React cannot render as the child [{msg.text}]: the page that
    rendered before the turn does not render after it. *)
Lemma object_reply_unmounts_the_page :
  let reply := Object [(js "text", String (js "Oi"))] in
  let o := inl {| status := 200;
                  json_settles := inl (Object [(js "response", reply)]) |} in
  let w := typed (js "Hello") in
  let w' := run FrontendApp w (turn o) in
  transport_error o = false
  ∧ renders (FrontendMarkup.render (state w)) = true
  ∧ messages (state w') = [user_entry (js "Hello"); bot_entry reply]
  ∧ isLoading (state w') = false
  ∧ React_child reply = None
  ∧ renders (FrontendMarkup.render (state w')) = false.
Proof. cbv zeta. repeat split; reflexivity. Qed.

(** C3. When the gateway call fails (the request is rejected, the status is
    not a success, or the body cannot be read as JSON), the turn leaves the
    transcript with the user entry followed by one bot entry that reads the
    fixed apology, whatever the error was; the page is idle again, and the
    next text submitted gets its turn like any other. *)
Theorem failed_turn_ends_with_apology (w : World) (o : Response + JsError) :
  Idle w →
  trim (input (state w)) ≠ [] →
  transport_error o = true →
  let w' := run FrontendApp w (turn o) in
  messages (state w') =
    messages (state w) ++ [user_entry (input (state w)); bot_entry (String apology)]
  ∧ Idle w'
  ∧ ∀ (t : jsstring) (o2 : Response + JsError),
      trim t ≠ [] →
      let w2 := run FrontendApp w' (Change t :: turn o2) in
      isLoading (state (run FrontendApp w' [Change t; Click])) = true
      ∧ messages (state w2) =
          messages (state w') ++ [user_entry t; bot_entry (turn_reply o2)]
      ∧ Idle w2.
Proof.
  intros Hidle Hvalid Hfail w'.
  destruct (turn_resolves w o Hidle Hvalid) as (Hstate & Hpending & _).
  fold w' in Hstate, Hpending.
  assert (Hreply : turn_reply o = String apology).
  { unfold turn_reply. destruct o as [response|error]; [|done].
    simpl in Hfail. destruct (ok response); [|done].
    by destruct (json_settles response). }
  assert (Hidle' : Idle w').
  { split; [by rewrite Hstate|done]. }
  split; [by rewrite Hstate, Hreply|].
  split; [done|].
  intros t o2 Ht w2. subst w2.
  destruct Hidle' as [Hbusy' Hnone'].
  change (run FrontendApp w' (Change t :: turn o2))
    with (run FrontendApp (step FrontendApp w' (Change t)) (turn o2)).
  change (run FrontendApp w' [Change t; Click])
    with (step FrontendApp (step FrontendApp w' (Change t)) Click).
  rewrite (edit_idle w' t Hbusy').
  set (w1 := {| state := _; pending := pending w'; log := _ |}).
  assert (Hidle1 : Idle w1) by (split; [reflexivity|exact Hnone']).
  destruct (submit_effects w1 (proj1 Hidle1) Ht) as (Hs1 & _).
  destruct (turn_resolves w1 o2 Hidle1 Ht) as (Hs2 & Hp2 & _).
  split; [by rewrite Hs1|].
  split; [by rewrite Hs2|].
  split; [by rewrite Hs2|done].
Qed.

Lemma failed_turn_ends_with_apology_witness :
  let o := inl {| status := 500; json_settles := inl Null |} in
  let w' := run FrontendApp (typed (js "Hello")) (turn o) in
  messages (state w') = [] ++ [user_entry (js "Hello"); bot_entry (String apology)]
  ∧ Idle w'
  ∧ ∀ (t : jsstring) (o2 : Response + JsError),
      trim t ≠ [] →
      let w2 := run FrontendApp w' (Change t :: turn o2) in
      isLoading (state (run FrontendApp w' [Change t; Click])) = true
      ∧ messages (state w2) =
          messages (state w') ++ [user_entry t; bot_entry (turn_reply o2)]
      ∧ Idle w2.
Proof.
  apply (failed_turn_ends_with_apology (typed (js "Hello"))
           (inl {| status := 500; json_settles := inl Null |})).
  - split; reflexivity.
  - vm_compute. discriminate.
  - reflexivity.
Defined.

(** C1, as the code has it.  When the gateway call returns a success status
    and a body that parses as JSON, the reply is not checked.  Where the
    field [response] is missing, or holds a value that is not a string but
    that React can render (a number, a boolean, [null], an array of such),
    the turn ends with the bot entry whose text is what [data.response]
    evaluates to, [undefined] for a missing field and the value as it is
    otherwise, and the page renders as it did before.  When reading the
    field throws (the body is [null]) the turn ends with the apology.  A
    reply React cannot render, an object, is left out of the statement. *)
Theorem unchecked_reply_is_appended
    (w : World) (response : Response) (data : JsVal) :
  Idle w →
  trim (input (state w)) ≠ [] →
  ok response = true →
  json_settles response = inl data →
  match member_response data with
  | inl data_response => is_Some (React_child data_response)
  | inr _ => True
  end →
  let w' := run FrontendApp w (turn (inl response)) in
  messages (state w') =
    messages (state w)
    ++ [user_entry (input (state w));
        match member_response data with
        | inl data_response => bot_entry data_response
        | inr _ => bot_entry (String apology)
        end]
  ∧ isLoading (state w') = false
  ∧ pending w' = []
  ∧ renders (FrontendMarkup.render (state w')) = renders (FrontendMarkup.render (state w)).
Proof.
  intros Hidle Hvalid Hok Hjson Hchild w'.
  destruct (turn_resolves w (inl response) Hidle Hvalid) as (Hstate & Hpending & _).
  fold w' in Hstate, Hpending. clearbody w'.
  assert (Hreply : turn_reply (inl response) =
                     match member_response data with
                     | inl data_response => data_response
                     | inr _ => String apology
                     end)
    by (unfold turn_reply; by rewrite Hok, Hjson).
  assert (Hrenderable : is_Some (React_child (turn_reply (inl response)))).
  { rewrite Hreply. destruct (member_response data); [done|by eexists]. }
  assert (Hms : messages (state w') =
                  messages (state w)
                  ++ [user_entry (input (state w));
                      bot_entry (turn_reply (inl response))])
    by (by rewrite Hstate).
  split; [rewrite Hms, Hreply; by destruct (member_response data)|].
  split; [by rewrite Hstate|]. split; [done|].
  by apply (renders_two_more _ _ _ _ Hms).
Qed.

Lemma unchecked_reply_is_appended_witness :
  let response :=
    {| status := 200;
       json_settles := inl (Object [(js "response", Number 42%float)]) |} in
  let w' := run FrontendApp (typed (js "Hello")) (turn (inl response)) in
  messages (state w') =
    messages (state (typed (js "Hello")))
    ++ [user_entry (input (state (typed (js "Hello"))));
        match member_response (Object [(js "response", Number 42%float)]) with
        | inl data_response => bot_entry data_response
        | inr _ => bot_entry (String apology)
        end]
  ∧ isLoading (state w') = false
  ∧ pending w' = []
  ∧ renders (FrontendMarkup.render (state w'))
    = renders (FrontendMarkup.render (state (typed (js "Hello")))).
Proof.
  apply (unchecked_reply_is_appended (typed (js "Hello"))
           {| status := 200;
              json_settles := inl (Object [(js "response", Number 42%float)]) |}
           (Object [(js "response", Number 42%float)])).
  - split; reflexivity.
  - vm_compute. discriminate.
  - reflexivity.
  - reflexivity.
  - apply (bool_decide_unpack _). reflexivity.
Defined.

(** C1 as the specification words it fails: a 200 response whose body is
    [{}] ends the turn with a bot entry whose text is [undefined], and one
    whose body is [{"response": 42}] with a bot entry whose text is the
    number 42; neither is the error entry. *)
Lemma malformed_reply_counterexample :
  let absent := {| status := 200; json_settles := inl (Object []) |} in
  let number :=
    {| status := 200;
       json_settles := inl (Object [(js "response", Number 42%float)]) |} in
  ok absent = true
  ∧ ok number = true
  ∧ messages (state (run FrontendApp (typed (js "Hello")) (turn (inl absent)))) =
      [user_entry (js "Hello"); bot_entry Undefined]
  ∧ messages (state (run FrontendApp (typed (js "Hello")) (turn (inl number)))) =
      [user_entry (js "Hello"); bot_entry (Number 42%float)]
  ∧ bot_entry Undefined ≠ bot_entry (String apology)
  ∧ bot_entry (Number 42%float) ≠ bot_entry (String apology).
Proof. vm_compute. repeat split; discriminate. Qed.

(** C8. On a valid submit [sendMessage] clears the pending input before it
    is suspended: [setInput('')] comes after the user entry is appended and
    before [fetch] is called, and the page is committed with the input
    empty; nothing that runs when the gateway call is settled sets the input
    again. *)
Theorem input_cleared_at_submit (w : World) (o : Response + JsError) :
  Idle w →
  trim (input (state w)) ≠ [] →
  let w1 := step FrontendApp w Click in
  let w2 := run FrontendApp w1 [FetchSettled 0 o; JsonSettled 0] in
  log w1 = log w ++
    [SetMessages (λ prevMessages, prevMessages ++ [user_entry (input (state w))]);
     SetInput [];
     SetIsLoading true;
     Fetch (chat_request (js "/api/chat") (js "user_message") (input (state w)))]
  ∧ input (state w1) = []
  ∧ isLoading (state w1) = true
  ∧ (∃ rest, log w2 = log w1 ++ rest
             ∧ forallb (λ e, negb (is_set_input e)) rest = true)
  ∧ input (state w2) = [].
Proof.
  intros Hidle Hvalid w1 w2.
  destruct (submit_effects w (proj1 Hidle) Hvalid) as (Hs1 & _ & Hlog1).
  destruct (turn_resolves w o Hidle Hvalid) as (Hs2 & _ & rest & Hlog2 & Hrest).
  fold w1 in Hs1, Hlog1, Hlog2.
  change (run FrontendApp w (turn o)) with w2 in Hs2, Hlog2.
  split; [done|]. split; [by rewrite Hs1|]. split; [by rewrite Hs1|].
  split; [|by rewrite Hs2].
  exists rest. split; [done|].
  rewrite forallb_forall in Hrest |- *. intros e He.
  specialize (Hrest e He). by destruct e.
Qed.

Lemma input_cleared_at_submit_witness :
  let w := typed (js "Hello") in
  let o := inl {| status := 200;
                  json_settles := inl (Object [(js "response", String (js "Oi"))]) |} in
  let w1 := step FrontendApp w Click in
  let w2 := run FrontendApp w1 [FetchSettled 0 o; JsonSettled 0] in
  log w1 = log w ++
    [SetMessages (λ prevMessages, prevMessages ++ [user_entry (input (state w))]);
     SetInput [];
     SetIsLoading true;
     Fetch (chat_request (js "/api/chat") (js "user_message") (input (state w)))]
  ∧ input (state w1) = []
  ∧ isLoading (state w1) = true
  ∧ (∃ rest, log w2 = log w1 ++ rest
             ∧ forallb (λ e, negb (is_set_input e)) rest = true)
  ∧ input (state w2) = [].
Proof.
  apply (input_cleared_at_submit (typed (js "Hello"))
           (inl {| status := 200;
                   json_settles := inl (Object [(js "response", String (js "Oi"))]) |})).
  - split; reflexivity.
  - vm_compute. discriminate.
Defined.

(** ** Submits while a turn is in flight, and the file input *)

(** C5. While the busy flag is up, a submit is dropped: the send button is
    disabled and [handleKeyDown] does not call [sendMessage], so the page
    stays exactly as it is, with no new entry, no new request and no new
    suspended call. *)
Theorem busy_submit_is_dropped (w : World) (key : jsstring) :
  isLoading (state w) = true →
  Frontend.handleKeyDown (state w) key = Ret tt
  ∧ step FrontendApp w (KeyDown key) = w
  ∧ step FrontendApp w Click = w.
Proof.
  intros Hbusy. unfold step; cbn [onKeyDown FrontendApp].
  unfold Frontend.handleKeyDown. rewrite Hbusy.
  by rewrite andb_false_r.
Qed.

Lemma busy_submit_is_dropped_witness :
  Frontend.handleKeyDown (state awaiting_reply) (js "Enter") = Ret tt
  ∧ step FrontendApp awaiting_reply (KeyDown (js "Enter")) = awaiting_reply
  ∧ step FrontendApp awaiting_reply Click = awaiting_reply.
Proof. apply (busy_submit_is_dropped awaiting_reply (js "Enter")). reflexivity. Defined.

(** The guard is in what the markup binds, not in [sendMessage]: called as
    it is on a busy state whose input is not blank, the function would append
    and fetch again.  No event reaches it there. *)
Example sendMessage_itself_is_unguarded :
  let s := {| messages := [user_entry (js "Hello")]; input := js "again";
              isLoading := true; selectedFile := None |} in
  let w := {| state := s; pending := pending awaiting_reply;
              log := log awaiting_reply |} in
  messages (state (exec (Frontend.sendMessage s) w)) =
    [user_entry (js "Hello"); user_entry (js "again")]
  ∧ length (requests (log (exec (Frontend.sendMessage s) w))) = 2
  ∧ step FrontendApp w Click = w.
Proof. vm_compute. done. Qed.

(** C10. [handleFileChange] sets [selectedFile] to the first file chosen and
    writes its name to the console, or does nothing when no file was chosen.
    The transcript, the pending input, the busy flag and the calls in flight
    stay as they are, and nothing is fetched. *)
Theorem file_change_only_selects (w : World) (files : list File) :
  let w' := step FrontendApp w (FileChange files) in
  Frontend.handleFileChange (state w) files =
    match files with
    | [] => Ret tt
    | file :: _ =>
        Act (SetSelectedFile file)
          (Act (ConsoleLog (js "Arquivo selecionado:") (file_name file)) (Ret tt))
    end
  ∧ messages (state w') = messages (state w)
  ∧ input (state w') = input (state w)
  ∧ isLoading (state w') = isLoading (state w)
  ∧ selectedFile (state w') = from_option Some (selectedFile (state w)) (head files)
  ∧ pending w' = pending w
  ∧ filter is_fetch (log w') = filter is_fetch (log w).
Proof.
  destruct files as [|file files]; cbn; [done|].
  rewrite <- app_assoc, filter_app. cbn. by rewrite app_nil_r.
Qed.

(** ** The transcript only grows *)

Section AppendsRules.
Context {A B : Type}.

Lemma Appends_bind (m : Prog A) (f : A → Prog B) :
  Appends m → (∀ a, Appends (f a)) → Appends (m ≫= f).
Proof.
  intros Hm Hf. induction Hm; cbn; try (constructor; by auto).
  apply Hf.
Qed.

Lemma Appends_try_catch (body : Prog A) (handler : JsError → Prog A) :
  Appends body → (∀ error, Appends (handler error)) →
  Appends (try_catch body handler).
Proof.
  intros Hbody Hhandler. induction Hbody; cbn; try (constructor; by auto).
  apply Hhandler.
Qed.

Lemma Appends_settled (r : A + JsError) : Appends (settled r).
Proof. destruct r; constructor. Qed.
End AppendsRules.

Lemma Appends_try_finally {A : Type} (body : Prog A) (finalizer : Prog unit) :
  Appends body → Appends finalizer → Appends (try_finally body finalizer).
Proof.
  intros Hbody Hfin.
  induction Hbody; cbn; try (constructor; by auto);
    (apply Appends_bind; [done|intros; constructor]).
Qed.

Lemma Appends_perform (e : Effect) : appending e → Appends (perform e).
Proof. intros He. constructor; [done|constructor]. Qed.

Lemma appending_push (m : Message) :
  appending (SetMessages (λ prevMessages, prevMessages ++ [m])).
Proof. intros ms. by apply prefix_app_r. Qed.

Lemma sendMessage_Appends (r : State) : Appends (Frontend.sendMessage r).
Proof.
  unfold Frontend.sendMessage.
  destruct (negb (ToBoolean (trim (input r)))); [constructor|].
  unfold setMessages, setInput, setIsLoading, console_error, await_fetch, await_json.
  repeat first
    [ apply Appends_bind | apply Appends_try_finally | apply Appends_try_catch
    | apply Appends_perform | apply appending_push | apply Appends_settled
    | exact I | constructor | intros ? | match goal with |- context [ok ?x] => destruct (ok x) end ].
Qed.

Lemma handleKeyDown_Appends (r : State) (key : jsstring) :
  Appends (Frontend.handleKeyDown r key).
Proof.
  unfold Frontend.handleKeyDown.
  destruct (_ && _); [apply sendMessage_Appends|constructor].
Qed.

Lemma handleFileChange_Appends (r : State) (files : list File) :
  Appends (Frontend.handleFileChange r files).
Proof.
  unfold Frontend.handleFileChange. destruct (files !! 0%nat); [|constructor].
  repeat constructor.
Qed.

(** Running such a program keeps every entry in its place, and what it
    leaves suspended is such a program again. *)
Lemma exec_Appends (p : Prog unit) (w : World) :
  Appends p →
  Forall appends_when_resumed (pending w) →
  messages (state w) `prefix_of` messages (state (exec p w))
  ∧ Forall appends_when_resumed (pending (exec p w)).
Proof.
  intros Hp. revert w.
  induction Hp as [a|error|e k He Hk IH|request k Hk _|response k Hk _];
    intros w Hpending; cbn.
  - done.
  - done.
  - destruct (IH {| state := apply_effect e (state w); pending := pending w;
                    log := log w ++ [e] |} Hpending) as [Hprefix Hrest].
    split; [|done].
    etransitivity; [|exact Hprefix].
    destruct e; cbn; done.
  - split; [done|]. apply Forall_app. split; [done|]. by constructor.
  - split; [done|]. apply Forall_app. split; [done|]. by constructor.
Qed.

Lemma step_Appends (w : World) (ev : Event) :
  Forall appends_when_resumed (pending w) →
  messages (state w) `prefix_of` messages (state (step FrontendApp w ev))
  ∧ Forall appends_when_resumed (pending (step FrontendApp w ev)).
Proof.
  intros Hpending.
  assert (Hresume : ∀ i, Forall appends_when_resumed (pending (resume i w))).
  { intros i. cbn. by apply Forall_delete. }
  destruct ev as [|key|value|files|i r|i]; unfold step;
    cbn [onClick onKeyDown onFileChange FrontendApp].
  - destruct (isLoading (state w)); [done|].
    apply exec_Appends; [apply sendMessage_Appends|done].
  - apply exec_Appends; [apply handleKeyDown_Appends|done].
  - apply exec_Appends; [by apply Appends_perform|done].
  - apply exec_Appends; [apply handleFileChange_Appends|done].
  - destruct (pending w !! i) as [[k|response k]|] eqn:Hi; [|done..].
    apply (exec_Appends (k r) (resume i w)); [|done].
    by apply (Forall_lookup_1 _ _ _ _ Hpending Hi).
  - destruct (pending w !! i) as [[k|response k]|] eqn:Hi; [done| |done].
    apply (exec_Appends (k (json_settles response)) (resume i w)); [|done].
    by apply (Forall_lookup_1 _ _ _ _ Hpending Hi).
Qed.

Lemma run_Appends (w : World) (evs : list Event) :
  Forall appends_when_resumed (pending w) →
  messages (state w) `prefix_of` messages (state (run FrontendApp w evs))
  ∧ Forall appends_when_resumed (pending (run FrontendApp w evs)).
Proof.
  revert w. induction evs as [|ev evs IH]; intros w Hpending; [done|].
  destruct (step_Appends w ev Hpending) as [Hprefix Hnext].
  destruct (IH _ Hnext) as [Hprefix' Hlast].
  split; [|done]. by etransitivity.
Qed.

Lemma run_app (c : Component) (w : World) (evs1 evs2 : list Event) :
  run c w (evs1 ++ evs2) = run c (run c w evs1) evs2.
Proof. unfold run. by rewrite foldl_app. Qed.

(** C6. Whatever happens on the page (clicks, keys, edits of the input,
    file choices, settlements of the gateway promises, in any order), the
    transcript after any further events extends the transcript before them:
    it is at least as long, and every entry it had is still there, at the
    same position, with the same sender and text. *)
Theorem transcript_is_append_only (before after : list Event) :
  let old := messages (state (run FrontendApp initial_world before)) in
  let new := messages (state (run FrontendApp initial_world (before ++ after))) in
  old `prefix_of` new
  ∧ length old ≤ length new
  ∧ new = old ++ drop (length old) new
  ∧ ∀ i, i < length old → new !! i = old !! i.
Proof.
  intros old new.
  assert (Hprefix : old `prefix_of` new).
  { subst old new. rewrite run_app.
    apply run_Appends. apply (run_Appends initial_world before). constructor. }
  split; [done|]. split; [by apply prefix_length|].
  destruct Hprefix as [rest ->]. split.
  - by rewrite drop_app_length.
  - intros i Hi. by apply lookup_app_l.
Qed.

(** ** One turn at a time *)

Lemma exec_Replies (b : bool) (p : Prog unit) (w : World) :
  Replies b p →
  isLoading (state w) = true →
  pending w = [] →
  (if b then paired (messages (state w))
   else ∃ ms u, messages (state w) = ms ++ [u] ∧ paired ms ∧ sender u = js "user") →
  consistent (exec p w).
Proof.
  intros Hp. revert w.
  induction Hp as [|updater m k Hupdater Hm Hk IH|b label error k Hk IH
                  |response k Hk _];
    intros w Hbusy Hnone Hms; cbn.
  - by apply consistent_idle.
  - apply IH; cbn; [done|done|].
    destruct Hms as (ms & u & -> & Hpaired & Hu).
    rewrite Hupdater, <- app_assoc. by apply paired_turn.
  - by apply IH.
  - destruct Hms as (ms & u & Hms & Hpaired & Hu).
    apply (consistent_busy _ ms u (OnJson response k)); cbn; try done.
    by rewrite Hnone.
Qed.

Lemma sendMessage_Replies (w : World) :
  isLoading (state w) = false →
  pending w = [] →
  paired (messages (state w)) →
  consistent (exec (Frontend.sendMessage (state w)) w).
Proof.
  intros Hidle Hnone Hpaired. unfold Frontend.sendMessage.
  destruct (negb (ToBoolean (trim (input (state w))))); cbn.
  { by apply consistent_idle. }
  eapply consistent_busy; cbn; [done|by rewrite Hnone| |done|done|done].
  intros [response|error]; cbn.
  - destruct (ok response); cbn.
    + constructor. intros [data|error]; cbn.
      * destruct (member_response data); cbn;
          repeat first [ by econstructor | econstructor ].
      * repeat first [ by econstructor | econstructor ].
    + repeat first [ by econstructor | econstructor ].
  - repeat first [ by econstructor | econstructor ].
Qed.

Lemma step_consistent (w : World) (ev : Event) :
  consistent w → consistent (step FrontendApp w ev).
Proof.
  intros [Hidle Hnone Hpaired|ms u t Hbusy Hone Ht Hms Hpaired Hu].
  - destruct ev as [|key|value|files|i r|i]; unfold step;
      cbn [onClick onKeyDown onFileChange FrontendApp];
      rewrite ?Hidle, ?Hnone, ?lookup_nil; try by apply consistent_idle.
    + by apply sendMessage_Replies.
    + unfold Frontend.handleKeyDown. destruct (_ && _).
      * by apply sendMessage_Replies.
      * by apply consistent_idle.
    + unfold Frontend.handleFileChange.
      destruct (files !! 0%nat); cbn; by apply consistent_idle.
  - assert (Hsame : consistent w) by (by eapply consistent_busy).
    destruct ev as [|key|value|files|i r|i]; unfold step;
      cbn [onClick onKeyDown onFileChange FrontendApp];
      rewrite ?Hbusy, ?Hone; try done.
    + unfold Frontend.handleKeyDown. by rewrite Hbusy, andb_false_r.
    + cbn. by eapply consistent_busy.
    + unfold Frontend.handleFileChange.
      destruct (files !! 0%nat); cbn; by eapply consistent_busy.
    + destruct i as [|i]; [|done]. cbn.
      destruct t as [k|response k]; [|exact Hsame].
      apply (exec_Replies false); cbn; [apply Ht|done|by rewrite Hone|eauto].
    + destruct i as [|i]; [|done]. cbn.
      destruct t as [k|response k]; [exact Hsame|].
      apply (exec_Replies false); cbn; [apply Ht|done|by rewrite Hone|eauto].
Qed.

(** Every page reached from the initial one has one of the two shapes. *)
Lemma run_consistent (w : World) (evs : list Event) :
  consistent w → consistent (run FrontendApp w evs).
Proof.
  revert w. induction evs as [|ev evs IH]; intros w Hw; [done|].
  apply IH. by apply step_consistent.
Qed.

Lemma initial_world_consistent : consistent initial_world.
Proof. apply consistent_idle; [done|done|constructor]. Qed.

Lemma paired_length (ms : list Message) : paired ms → Nat.Even (length ms).
Proof.
  induction 1 as [|ms u b _ [n Hn] _ _]; [by exists 0|].
  exists (S n). rewrite length_app, Hn. cbn. lia.
Qed.

(** X1. Whatever the events, at most one call of [sendMessage] is in flight,
    one exactly when the busy flag is up; and the entries of the transcript
    and the call in flight together are even in number: when the flag is
    down the transcript is made of whole turns. *)
Lemma one_turn_in_flight (evs : list Event) :
  let w := run FrontendApp initial_world evs in
  length (pending w) = (if isLoading (state w) then 1 else 0)
  ∧ Nat.Even (length (messages (state w)) + length (pending w)).
Proof.
  cbv zeta.
  destruct (run_consistent initial_world evs initial_world_consistent)
    as [Hidle Hnone Hpaired|ms u t Hbusy Hone _ Hms Hpaired _].
  - rewrite Hidle, Hnone. cbn. rewrite Nat.add_0_r.
    split; [done|by apply paired_length].
  - rewrite Hbusy, Hone, Hms, length_app. cbn. split; [done|].
    destruct (paired_length ms Hpaired) as [n Hn]. exists (S n). lia.
Qed.

(** The success path of the specification: the reply of the backend is the
    text of the bot entry. *)
Example success_path :
  messages (state (run FrontendApp
    (typed (js "How should I take this medicine?"))
    (turn (inl {| status := 200;
                  json_settles :=
                    inl (Object [(js "response",
                                  String (js "Take two tablets daily."))]) |})))) =
  [user_entry (js "How should I take this medicine?");
   bot_entry (String (js "Take two tablets daily."))].
Proof. reflexivity. Qed.

(** ** The two variants of [sendMessage] *)

Lemma chat_state_apply_effect (e : Effect) (s1 s2 : State) :
  chat_state s1 = chat_state s2 →
  chat_state (apply_effect e s1) = chat_state (apply_effect e s2).
Proof.
  unfold chat_state. intros [= Hm Hi Hl].
  destruct e; cbn; by rewrite ?Hm, ?Hi, ?Hl.
Qed.

Lemma requests_snoc (l : list Effect) (e : Effect) :
  requests (l ++ [e]) =
    requests l ++ match e with Fetch request => [request] | _ => [] end.
Proof. unfold requests. rewrite omap_app. by destruct e. Qed.

Lemma exec_Similar (p1 p2 : Prog unit) (w1 w2 : World) :
  Similar p1 p2 → related w1 w2 → related (exec p1 w1) (exec p2 w2).
Proof.
  intros Hp. revert w1 w2.
  induction Hp as [a|error|e k1 k2 He Hk IH|request1 request2 k1 k2 Hreq Hk _
                  |response k1 k2 Hk _];
    intros w1 w2 [Hstate Hpending Hrequests Heffects]; cbn; [done|done|..].
  - apply IH. split; cbn.
    + by apply chat_state_apply_effect.
    + done.
    + rewrite !requests_snoc. destruct e; try discriminate; by rewrite !app_nil_r.
    + rewrite !filter_app. by rewrite Heffects.
  - split; cbn.
    + done.
    + apply Forall2_app; [done|]. by repeat constructor.
    + rewrite !requests_snoc. apply Forall2_app; [done|]. by repeat constructor.
    + rewrite !filter_app. cbn. by rewrite !app_nil_r.
  - split; cbn; [done| |done|done].
    apply Forall2_app; [done|]. by repeat constructor.
Qed.

Lemma sendMessage_Similar (s1 s2 : State) :
  chat_state s1 = chat_state s2 →
  Similar (Frontend.sendMessage s1) (Dockerfile.sendMessage s2).
Proof.
  unfold chat_state. intros [= _ Hinput _].
  unfold Frontend.sendMessage, Dockerfile.sendMessage. rewrite Hinput.
  destruct (negb (ToBoolean (trim (input s2)))); [constructor|].
  cbn. do 3 (constructor; [done|]).
  constructor; [apply same_turn_request_intro|].
  intros [response|error]; cbn; [|by repeat constructor].
  destruct (ok response); cbn; [|by repeat constructor].
  constructor. intros [data|error]; cbn; [|by repeat constructor].
  destruct (member_response data); cbn; by repeat constructor.
Qed.

Lemma handleKeyDown_Similar (s1 s2 : State) (key : jsstring) :
  chat_state s1 = chat_state s2 →
  Similar (Frontend.handleKeyDown s1 key) (Dockerfile.handleKeyDown s2 key).
Proof.
  intros Hs. unfold Frontend.handleKeyDown, Dockerfile.handleKeyDown.
  assert (isLoading s1 = isLoading s2) as -> by (by injection Hs).
  destruct (_ && _); [by apply sendMessage_Similar|constructor].
Qed.

Lemma related_resume (i : nat) (w1 w2 : World) :
  related w1 w2 → related (resume i w1) (resume i w2).
Proof.
  intros [Hstate Hpending Hrequests Heffects]. split; cbn; [done| |done|done].
  by apply Forall2_delete.
Qed.

Lemma related_lookup (i : nat) (w1 w2 : World) :
  related w1 w2 →
  option_Forall2 similar_when_resumed (pending w1 !! i) (pending w2 !! i).
Proof. intros Hw. apply Forall2_lookup, Hw. Qed.

(** One event keeps the two pages related.  The file input exists on one
    side only; what its handler does is outside of what is compared. *)
Lemma step_related (w1 w2 : World) (ev : Event) :
  related w1 w2 →
  related (step FrontendApp w1 ev) (step DockerfileApp w2 ev).
Proof.
  intros Hw.
  assert (Hbusy : isLoading (state w1) = isLoading (state w2)).
  { destruct Hw as [Hs _ _ _]. by injection Hs. }
  destruct ev as [|key|value|files|i r|i]; unfold step;
    cbn [onClick onKeyDown onFileChange FrontendApp DockerfileApp].
  - rewrite Hbusy. destruct (isLoading (state w2)); [done|].
    apply exec_Similar; [|done]. apply sendMessage_Similar, Hw.
  - apply exec_Similar; [|done]. apply handleKeyDown_Similar, Hw.
  - apply (exec_Similar (setInput value) (setInput value)); [|done].
    by repeat constructor.
  - destruct Hw as [Hstate Hpending Hrequests Heffects].
    unfold Frontend.handleFileChange.
    destruct (files !! 0%nat) as [file|]; cbn; [|done].
    split; cbn; [done|done| |].
    + by rewrite !requests_snoc, !app_nil_r.
    + rewrite !filter_app. cbn. by rewrite !app_nil_r.
  - pose proof (related_lookup i w1 w2 Hw) as Hi.
    destruct Hi as [t1 t2 Ht|]; [|done].
    destruct Ht as [k1 k2 Hk|response k1 k2 Hk]; [|done].
    apply exec_Similar; [apply Hk|by apply related_resume].
  - pose proof (related_lookup i w1 w2 Hw) as Hi.
    destruct Hi as [t1 t2 Ht|]; [|done].
    destruct Ht as [k1 k2 Hk|response k1 k2 Hk]; [done|].
    apply exec_Similar; [apply Hk|by apply related_resume].
Qed.

Lemma run_related (w1 w2 : World) (evs : list Event) :
  related w1 w2 →
  related (run FrontendApp w1 evs) (run DockerfileApp w2 evs).
Proof.
  revert w1 w2. induction evs as [|ev evs IH]; intros w1 w2 Hw; [done|].
  apply IH. by apply step_related.
Qed.

(** C9. Started with the same text in the input and fed the same events
    (the same submits, the same outcomes of the gateway calls, the same
    edits, in the same order), the component of
    App.jsx and the one of the Dockerfile show the same transcript, the same
    pending input and the same busy flag, set the chat hooks and write the
    same errors to the console in the same order, and have the same calls in
    flight; the requests they issue correspond one to one and differ only in
    the endpoint and in the name of the body field. *)
Theorem variants_agree (t : jsstring) (evs : list Event) :
  let w1 := run FrontendApp (typed t) evs in
  let w2 := run DockerfileApp (typed t) evs in
  messages (state w1) = messages (state w2)
  ∧ input (state w1) = input (state w2)
  ∧ isLoading (state w1) = isLoading (state w2)
  ∧ length (pending w1) = length (pending w2)
  ∧ filter chat_effect (log w1) = filter chat_effect (log w2)
  ∧ Forall2 same_turn_request (requests (log w1)) (requests (log w2)).
Proof.
  intros w1 w2.
  assert (Hw : related w1 w2).
  { apply run_related. by split; cbn; constructor. }
  destruct Hw as [Hstate Hpending Hrequests Heffects].
  injection Hstate as Hm Hi Hl.
  repeat split; try done. by eapply Forall2_length.
Qed.

(** ** The history of every page *)

Lemma requests_app (l1 l2 : list Effect) :
  requests (l1 ++ l2) = requests l1 ++ requests l2.
Proof. apply omap_app. Qed.

Lemma bot_entry_eta (m : Message) : sender m = js "bot" → m = bot_entry (text m).
Proof. destruct m as [s t]; cbn. by intros ->. Qed.

(** What the rest of a turn does when it is resumed: it leaves the input,
    the file selected and the requests alone, and either ends the turn with
    one bot entry and the flag down, or waits again. *)
Lemma exec_Replies_outcome (b : bool) (p : Prog unit) (w : World) :
  Replies b p →
  let w' := exec p w in
  input (state w') = input (state w)
  ∧ selectedFile (state w') = selectedFile (state w)
  ∧ requests (log w') = requests (log w)
  ∧ ((∃ v, messages (state w') =
             messages (state w) ++ (if b then [] else [bot_entry v]))
       ∧ isLoading (state w') = false
       ∧ pending w' = pending w
     ∨ b = false
       ∧ state w' = state w
       ∧ ∃ t, pending w' = pending w ++ [t] ∧ replies_when_resumed t).
Proof.
  intros Hp. revert w.
  induction Hp as [|updater m k Hupdater Hm Hk IH|b label error k Hk IH
                  |response k Hk _]; intros w; cbn.
  - rewrite requests_snoc, !app_nil_r.
    split; [done|]. split; [done|]. split; [done|].
    left. split; [by exists Undefined|done].
  - destruct (IH {| state := apply_effect (SetMessages updater) (state w);
                    pending := pending w;
                    log := log w ++ [SetMessages updater] |})
      as (Hinput & Hfile & Hrequests & [([v Hms] & Hbusy & Hpending)|[? _]]);
      [|done].
    cbn in *. rewrite requests_snoc, app_nil_r in Hrequests.
    split; [done|]. split; [done|]. split; [done|].
    left. split; [|done].
    exists (text m). by rewrite Hms, app_nil_r, Hupdater, <- bot_entry_eta.
  - destruct (IH {| state := state w; pending := pending w;
                    log := log w ++ [ConsoleError label error] |})
      as (Hinput & Hfile & Hrequests & Hrest).
    cbn in *. rewrite requests_snoc, app_nil_r in Hrequests.
    by repeat split.
  - split; [done|]. split; [done|]. split; [done|].
    right. split; [done|]. split; [done|]. by exists (OnJson response k).
Qed.

(** The page a valid submit leaves, with what is suspended. *)
Lemma submit_world (w : World) :
  isLoading (state w) = false →
  trim (input (state w)) ≠ [] →
  ∃ k, (∀ r, Replies false (k r))
    ∧ step FrontendApp w Click =
        {| state := {| messages := messages (state w) ++ [user_entry (input (state w))];
                       input := []; isLoading := true;
                       selectedFile := selectedFile (state w) |};
           pending := pending w ++ [OnFetch k];
           log := log w ++
             [SetMessages (λ prevMessages, prevMessages ++ [user_entry (input (state w))]);
              SetInput [];
              SetIsLoading true;
              Fetch (api_request (input (state w)))] |}.
Proof.
  intros Hidle Hvalid. submit_valid Hidle Hvalid.
  eexists. split; [|by rewrite <- !app_assoc].
  intros [response|error]; cbn.
  - destruct (ok response); cbn.
    + constructor. intros [data|error]; cbn.
      * destruct (member_response data); cbn;
          repeat first [ by econstructor | econstructor ].
      * repeat first [ by econstructor | econstructor ].
    + repeat first [ by econstructor | econstructor ].
  - repeat first [ by econstructor | econstructor ].
Qed.

Lemma blank_click (w : World) :
  trim (input (state w)) = [] → step FrontendApp w Click = w.
Proof.
  intros Hblank. unfold step; cbn [onClick FrontendApp].
  unfold Frontend.sendMessage. rewrite Hblank. cbn.
  by destruct (isLoading (state w)).
Qed.

Lemma other_key (w : World) (key : jsstring) :
  key ≠ js "Enter" → step FrontendApp w (KeyDown key) = w.
Proof.
  intros Hkey. unfold step; cbn [onKeyDown FrontendApp].
  unfold Frontend.handleKeyDown. by rewrite (bool_decide_eq_false_2 _ Hkey).
Qed.

Lemma busy_key (w : World) (key : jsstring) :
  isLoading (state w) = true → step FrontendApp w (KeyDown key) = w.
Proof.
  intros Hbusy. unfold step; cbn [onKeyDown FrontendApp].
  unfold Frontend.handleKeyDown. by rewrite Hbusy, andb_false_r.
Qed.

(** [onChange] sets the input, on a busy page as on an idle one. *)
Lemma edit (w : World) (t : jsstring) :
  step FrontendApp w (Change t) =
    {| state := {| messages := messages (state w); input := t;
                   isLoading := isLoading (state w);
                   selectedFile := selectedFile (state w) |};
       pending := pending w;
       log := log w ++ [SetInput t] |}.
Proof. done. Qed.

Lemma transcript_snoc (turns : list (jsstring * JsVal)) (t : jsstring) (v : JsVal) :
  transcript (turns ++ [(t, v)]) = transcript turns ++ [user_entry t; bot_entry v].
Proof.
  unfold transcript. by rewrite fmap_app, concat_app.
Qed.

(** A click on a page with a history: nothing, or the submit of the input. *)
Lemma click_tracked (turns : list (jsstring * JsVal)) (w : World) :
  tracked turns None w →
  let w' := step FrontendApp w Click in
  selectedFile (state w') = selectedFile (state w)
  ∧ (w' = w ∨ trim (input (state w)) ≠ [] ∧ tracked turns (Some (input (state w))) w').
Proof.
  intros [Hms Hreq Hnb Hbusy Hpending] w'. subst w'. cbn in Hpending, Hnb, Hms.
  destruct (decide (trim (input (state w)) = [])) as [Hblank|Hvalid].
  { rewrite (blank_click w Hblank). auto. }
  destruct (submit_world w Hbusy Hvalid) as (k & Hk & ->). cbn.
  split; [done|]. right. split; [done|]. split; cbn.
  - by rewrite Hms, app_nil_r.
  - rewrite requests_app, Hreq, app_nil_r, fmap_app. done.
  - apply Forall_app. apply Forall_app in Hnb as [Hnb _].
    split; [done|]. by repeat constructor.
  - done.
  - exists (OnFetch k). by rewrite Hpending.
Qed.

Lemma texts_snoc (turns : list (jsstring * JsVal)) (t : jsstring) (v : JsVal) :
  (turns ++ [(t, v)]).*1 ++ option_list None = turns.*1 ++ option_list (Some t).
Proof. rewrite fmap_app. cbn. by rewrite app_nil_r. Qed.

(** The turn in flight is resumed: it ends with a reply, or waits again. *)
Lemma resume_tracked (turns : list (jsstring * JsVal)) (t : jsstring)
    (w : World) (task : Suspended) (p : Prog unit) :
  tracked turns (Some t) w →
  pending w = [task] →
  Replies false p →
  let w' := exec p (resume 0 w) in
  selectedFile (state w') = selectedFile (state w)
  ∧ (messages (state w') = messages (state w) ∧ tracked turns (Some t) w'
     ∨ ∃ v, tracked (turns ++ [(t, v)]) None w').
Proof.
  intros [Hms Hreq Hnb Hbusy _] Hpending Hp.
  pose proof (exec_Replies_outcome false p (resume 0 w) Hp) as H.
  cbv zeta in H |- *.
  change (state (resume 0 w)) with (state w) in H.
  change (log (resume 0 w)) with (log w) in H.
  assert (Hnone : pending (resume 0 w) = []) by (cbn; by rewrite Hpending).
  rewrite Hnone in H.
  set (w' := exec p (resume 0 w)) in *. clearbody w'.
  destruct H as (Hinput' & Hfile' & Hreq' & Hend).
  split; [done|].
  destruct Hend as [([v Hms'] & Hbusy' & Hpending')
                   |(_ & Hstate & task' & Hpending' & Htask')].
  - right. exists v. split.
    + rewrite Hms', Hms, transcript_snoc. cbn. by rewrite <- app_assoc, app_nil_r.
    + by rewrite Hreq', Hreq, texts_snoc.
    + by rewrite texts_snoc.
    + done.
    + done.
  - left. rewrite Hstate. split; [done|]. split; rewrite ?Hstate.
    + done.
    + by rewrite Hreq'.
    + done.
    + done.
    + by exists task'.
Qed.

(** One event on a page with a history.  The file selected changes on a
    choice of files only; the history stays, or a turn begins, or the turn
    in flight ends. *)
Lemma step_tracked (turns : list (jsstring * JsVal)) (inflight : option jsstring)
    (w : World) (ev : Event) :
  tracked turns inflight w →
  let w' := step FrontendApp w ev in
  selectedFile (state w') = choice ev (selectedFile (state w))
  ∧ (messages (state w') = messages (state w) ∧ tracked turns inflight w'
     ∨ inflight = None ∧ tracked turns (Some (input (state w))) w'
     ∨ ∃ t v, inflight = Some t ∧ tracked (turns ++ [(t, v)]) None w').
Proof.
  intros Hw.
  assert (Hfile : ∀ files,
    let w' := step FrontendApp w (FileChange files) in
    selectedFile (state w') = choice (FileChange files) (selectedFile (state w))
    ∧ messages (state w') = messages (state w)
    ∧ tracked turns inflight w').
  { intros files. destruct Hw as [Hms Hreq Hnb Hbusy Hpending].
    destruct files as [|file files]; cbn; [done|].
    split; [done|]. split; [done|]. split; cbn; try done.
    by rewrite !requests_snoc, !app_nil_r. }
  destruct inflight as [t|].
  - (* a turn is in flight *)
    pose proof Hw as [Hms Hreq Hnb Hbusy (task & Hpending & Htask)].
    destruct ev as [|key|value|files|i r|i]; cbn [choice].
    1: { unfold step. rewrite Hbusy. auto. }
    1: { rewrite (busy_key w key Hbusy). auto. }
    1: { rewrite edit. cbn. split; [done|]. left. split; [done|].
         split; cbn; try done; [by rewrite requests_snoc, app_nil_r|by exists task]. }
    all: unfold step; cbn [onFileChange FrontendApp]; rewrite ?Hpending.
    + destruct (Hfile files) as (? & ? & ?). auto.
    + destruct i as [|i]; [|by auto]. cbn [lookup list_lookup].
      destruct task as [k|response k]; [|by auto].
      destruct (resume_tracked turns t w _ (k r) Hw Hpending (Htask r))
        as (Hsel & [H|[v H]]); [by auto|].
      split; [done|]. right; right. by exists t, v.
    + destruct i as [|i]; [|by auto]. cbn [lookup list_lookup].
      destruct task as [k|response k]; [by auto|].
      destruct (resume_tracked turns t w _ (k (json_settles response)) Hw Hpending
                  (Htask (json_settles response)))
        as (Hsel & [H|[v H]]); [by auto|].
      split; [done|]. right; right. by exists t, v.
  - (* the page is idle *)
    pose proof Hw as [Hms Hreq Hnb Hbusy Hpending]. cbn in Hpending.
    destruct ev as [|key|value|files|i r|i]; cbn [choice].
    + destruct (click_tracked turns w Hw) as (Hsel & [->|[_ Hsubmit]]); auto.
    + destruct (decide (key = js "Enter")) as [->|Hkey].
      * rewrite keydown_enter_is_click.
        destruct (click_tracked turns w Hw) as (Hsel & [->|[_ Hsubmit]]); auto.
      * rewrite (other_key w key Hkey). auto.
    + rewrite (edit_idle w value Hbusy). cbn. split; [done|]. left.
      split; [done|]. split; cbn; try done.
      by rewrite requests_snoc, app_nil_r.
    + destruct (Hfile files) as (? & ? & ?). auto.
    + unfold step. rewrite Hpending, lookup_nil. auto.
    + unfold step. rewrite Hpending, lookup_nil. auto.
Qed.

Lemma initial_world_tracked : tracked [] None initial_world.
Proof. by split; cbn. Qed.

Lemma run_snoc (c : Component) (w : World) (evs : list Event) (ev : Event) :
  run c w (evs ++ [ev]) = step c (run c w evs) ev.
Proof. by rewrite run_app. Qed.

(** Every page reached from the initial one has a history. *)
Lemma run_tracked (evs : list Event) :
  ∃ turns inflight, tracked turns inflight (run FrontendApp initial_world evs).
Proof.
  induction evs as [|ev evs IH] using rev_ind.
  { exists [], None. apply initial_world_tracked. }
  destruct IH as (turns & inflight & Hw). rewrite run_snoc.
  destruct (step_tracked turns inflight _ ev Hw)
    as (_ & [[_ H]|[[_ H]|(t & v & _ & H)]]); eauto.
Qed.

Lemma transcript_cons (t : jsstring) (v : JsVal) (turns : list (jsstring * JsVal)) :
  transcript ((t, v) :: turns) = user_entry t :: bot_entry v :: transcript turns.
Proof. done. Qed.

Lemma sent_texts_history (turns : list (jsstring * JsVal)) (inflight : option jsstring) :
  sent_texts (transcript turns ++ waiting_entry inflight)
  = turns.*1 ++ option_list inflight.
Proof.
  induction turns as [|[t v] turns IH].
  - by destruct inflight.
  - rewrite transcript_cons. cbn. by rewrite <- IH.
Qed.

Lemma history_reply (turns : list (jsstring * JsVal)) (t : jsstring) (v : JsVal) :
  transcript (turns ++ [(t, v)]) ++ waiting_entry None
  = (transcript turns ++ waiting_entry (Some t)) ++ [bot_entry v].
Proof. rewrite transcript_snoc. cbn. by rewrite app_nil_r, <- app_assoc. Qed.

(** In a transcript with a history the entries at even positions are user
    entries with a text that is not blank, the ones at odd positions bot
    entries. *)
Lemma history_lookup (turns : list (jsstring * JsVal)) (inflight : option jsstring)
    (i : nat) (m : Message) :
  Forall (λ t, trim t ≠ []) (turns.*1 ++ option_list inflight) →
  (transcript turns ++ waiting_entry inflight) !! i = Some m →
  if Nat.even i
  then ∃ t, m = user_entry t ∧ trim t ≠ []
  else ∃ v, m = bot_entry v.
Proof.
  revert i. induction turns as [|[t v] turns IH]; intros i Hnb Hi.
  - destruct inflight as [t|]; [|done].
    destruct i as [|i]; [|done]. cbn in Hi. injection Hi as <-.
    exists t. split; [done|]. by apply Forall_inv in Hnb.
  - rewrite transcript_cons in Hi. cbn in Hnb.
    destruct i as [|[|i]]; cbn in Hi.
    + injection Hi as <-. exists t. split; [done|]. by apply Forall_inv in Hnb.
    + injection Hi as <-. by exists v.
    + apply (IH i); [by apply Forall_inv_tail in Hnb|done].
Qed.

(** ** What every page shows of its history *)

(** X2. On every page reached from the initial one the transcript
    alternates: the entries at even positions are user entries whose text is
    a string that is not blank, the ones at odd positions are bot entries. *)
Theorem transcript_alternates (evs : list Event) (i : nat) (m : Message) :
  messages (state (run FrontendApp initial_world evs)) !! i = Some m →
  if Nat.even i
  then sender m = js "user" ∧ ∃ t, text m = String t ∧ trim t ≠ []
  else sender m = js "bot".
Proof.
  destruct (run_tracked evs) as (turns & inflight & [Hms _ Hnb _ _]).
  rewrite Hms. intros Hi.
  pose proof (history_lookup turns inflight i m Hnb Hi) as H.
  destruct (Nat.even i).
  - destruct H as (t & -> & Ht). split; [done|]. by exists t.
  - by destruct H as (v & ->).
Qed.

Lemma transcript_alternates_witness :
  if Nat.even 1
  then sender (bot_entry (String apology)) = js "user"
       ∧ ∃ t, text (bot_entry (String apology)) = String t ∧ trim t ≠ []
  else sender (bot_entry (String apology)) = js "bot".
Proof.
  apply (transcript_alternates
           (Change (js "Hello") :: turn (inr (TypeError (js "Failed to fetch"))))
           1 (bot_entry (String apology))).
  reflexivity.
Defined.

(** X3. On every page reached from the initial one the requests issued so
    far are, in order, the requests for the texts of the user entries of the
    transcript: one request for each, none repeated, none without its
    entry. *)
Theorem one_request_per_user_entry (evs : list Event) :
  let w := run FrontendApp initial_world evs in
  requests (log w) = api_request <$> sent_texts (messages (state w)).
Proof.
  cbv zeta. destruct (run_tracked evs) as (turns & inflight & [Hms Hreq _ _ _]).
  by rewrite Hreq, Hms, sent_texts_history.
Qed.

(** X4. Every request ever issued is a POST to /api/chat with the header
    Content-Type: application/json and a body with the one field
    user_message, whose text is not blank. *)
Theorem no_blank_request (evs : list Event) :
  Forall (λ request, ∃ t, request = api_request t ∧ trim t ≠ [])
         (requests (log (run FrontendApp initial_world evs))).
Proof.
  destruct (run_tracked evs) as (turns & inflight & [_ Hreq Hnb _ _]).
  rewrite Hreq. apply Forall_fmap. eapply Forall_impl; [exact Hnb|].
  intros t Ht. by exists t.
Qed.

(** X5. An edit made while a turn is in flight is applied (the [onChange]
    handler has no test of [isLoading]; only the [disabled] attribute the
    input is rendered with stands in the way of the user), and it survives
    the reply: when the turn is over the input still holds it, for the turn
    sets the input at the submit only.  Stated for the replies that
    render. *)
Theorem busy_edit_survives_reply (w : World) (t : jsstring) (o : Response + JsError) :
  Idle w →
  trim (input (state w)) ≠ [] →
  is_Some (React_child (turn_reply o)) →
  let w1 := run FrontendApp w [Click; Change t] in
  let w2 := run FrontendApp w1 [FetchSettled 0 o; JsonSettled 0] in
  isLoading (state w1) = true
  ∧ input_disabled (chat (FrontendMarkup.render (state w1))) = true
  ∧ input (state w1) = t
  ∧ messages (state w2) =
      messages (state w) ++ [user_entry (input (state w)); bot_entry (turn_reply o)]
  ∧ input (state w2) = t
  ∧ Idle w2
  ∧ renders (FrontendMarkup.render (state w2)) = renders (FrontendMarkup.render (state w)).
Proof.
  intros Hidle Hvalid Hchild w1 w2.
  destruct (edited_turn_resolves w t o Hidle Hvalid) as (Hs1 & Hs2 & Hpending).
  fold w1 in Hs1, Hs2, Hpending. fold w2 in Hs2, Hpending. clearbody w1 w2.
  assert (Hrenders : renders (FrontendMarkup.render (state w2))
                     = renders (FrontendMarkup.render (state w))).
  { apply (renders_two_more _ _ (input (state w)) (turn_reply o)); [|done].
    by rewrite Hs2. }
  split; [by rewrite Hs1|].
  split; [unfold FrontendMarkup.render; cbn [chat input_disabled]; by rewrite Hs1|].
  split; [by rewrite Hs1|].
  split; [by rewrite Hs2|].
  split; [by rewrite Hs2|].
  split; [split; [by rewrite Hs2|done]|].
  exact Hrenders.
Qed.

Lemma busy_edit_survives_reply_witness :
  let w := typed (js "Hello") in
  let o := inl {| status := 200;
                  json_settles := inl (Object [(js "response", String (js "Oi"))]) |} in
  let w1 := run FrontendApp w [Click; Change (js "more")] in
  let w2 := run FrontendApp w1 [FetchSettled 0 o; JsonSettled 0] in
  isLoading (state w1) = true
  ∧ input_disabled (chat (FrontendMarkup.render (state w1))) = true
  ∧ input (state w1) = js "more"
  ∧ messages (state w2) =
      messages (state w) ++ [user_entry (input (state w)); bot_entry (turn_reply o)]
  ∧ input (state w2) = js "more"
  ∧ Idle w2
  ∧ renders (FrontendMarkup.render (state w2)) = renders (FrontendMarkup.render (state w)).
Proof.
  apply (busy_edit_survives_reply (typed (js "Hello")) (js "more")
           (inl {| status := 200;
                   json_settles := inl (Object [(js "response", String (js "Oi"))]) |})).
  - split; reflexivity.
  - vm_compute. discriminate.
  - apply (bool_decide_unpack _). reflexivity.
Defined.

(** X10. On a page reached from the initial one, an event leaves the
    transcript and the busy flag as they are, or begins a turn (the flag goes
    up and the user entry with the input is appended), or ends one (the flag
    goes down and one bot entry is appended).  The flag never moves without
    an entry, nor an entry without the flag. *)
Theorem event_moves_flag_and_transcript_together (evs : list Event) (ev : Event) :
  let w := run FrontendApp initial_world evs in
  let w' := step FrontendApp w ev in
  messages (state w') = messages (state w)
    ∧ isLoading (state w') = isLoading (state w)
  ∨ isLoading (state w) = false ∧ isLoading (state w') = true
    ∧ messages (state w') = messages (state w) ++ [user_entry (input (state w))]
  ∨ isLoading (state w) = true ∧ isLoading (state w') = false
    ∧ ∃ v, messages (state w') = messages (state w) ++ [bot_entry v].
Proof.
  cbv zeta. destruct (run_tracked evs) as (turns & inflight & Hw).
  destruct (step_tracked turns inflight _ ev Hw)
    as (_ & [[Hms H]|[[-> H]|(t & v & -> & H)]]).
  - left. split; [done|].
    by rewrite (tracked_busy _ _ _ H), (tracked_busy _ _ _ Hw).
  - right; left.
    rewrite (tracked_busy _ _ _ H), (tracked_busy _ _ _ Hw).
    rewrite (tracked_messages _ _ _ H), (tracked_messages _ _ _ Hw).
    cbn. by rewrite app_nil_r.
  - right; right.
    rewrite (tracked_busy _ _ _ H), (tracked_busy _ _ _ Hw).
    rewrite (tracked_messages _ _ _ H), (tracked_messages _ _ _ Hw).
    split; [done|]. split; [done|]. exists v. apply history_reply.
Qed.

(** X9. Typing sends nothing: keys other than Enter and edits of the input,
    in any number and order, leave the transcript, the busy flag, the calls
    in flight, the requests and the file selected as they are; the input
    ends up with the last edit. *)
Theorem typing_never_sends (w : World) (evs : list Event) :
  forallb typing evs = true →
  let w' := run FrontendApp w evs in
  messages (state w') = messages (state w)
  ∧ isLoading (state w') = isLoading (state w)
  ∧ pending w' = pending w
  ∧ requests (log w') = requests (log w)
  ∧ selectedFile (state w') = selectedFile (state w)
  ∧ input (state w') = last_edit evs (input (state w)).
Proof.
  revert w. induction evs as [|ev evs IH]; intros w Htyping; cbn in Htyping.
  { done. }
  apply andb_prop in Htyping as [Hev Hevs].
  specialize (IH (step FrontendApp w ev) Hevs). cbv zeta in IH |- *.
  change (run FrontendApp w (ev :: evs))
    with (run FrontendApp (step FrontendApp w ev) evs).
  destruct ev as [|key|value| | |]; try done; cbn in Hev.
  - apply negb_true_iff, bool_decide_eq_false in Hev.
    rewrite (other_key w key Hev) in *. exact IH.
  - rewrite (edit w value) in *. cbn in IH.
    rewrite requests_snoc, app_nil_r in IH. exact IH.
Qed.

Lemma typing_never_sends_witness :
  let w := typed (js "Hel") in
  let evs := [KeyDown (js "l"); Change (js "Hell"); KeyDown (js "Shift");
              KeyDown (js "enter"); Change (js "Hello")] in
  let w' := run FrontendApp w evs in
  messages (state w') = messages (state w)
  ∧ isLoading (state w') = isLoading (state w)
  ∧ pending w' = pending w
  ∧ requests (log w') = requests (log w)
  ∧ selectedFile (state w') = selectedFile (state w)
  ∧ input (state w') = last_edit evs (input (state w)).
Proof.
  apply (typing_never_sends (typed (js "Hel"))
           [KeyDown (js "l"); Change (js "Hell"); KeyDown (js "Shift");
            KeyDown (js "enter"); Change (js "Hello")]).
  reflexivity.
Defined.

(** ** What a turn writes *)

Ltac turn_log_done := by rewrite <- ?app_assoc.

(** Everything a turn does once its request is out, by the outcome. *)
Lemma turn_log (w : World) (o : Response + JsError) :
  Idle w →
  trim (input (state w)) ≠ [] →
  log (run FrontendApp w (turn o)) =
    log (step FrontendApp w Click)
    ++ match turn_error o with
       | Some error => [ConsoleError (js "Erro ao enviar mensagem:") error]
       | None => []
       end
    ++ [SetMessages (λ prevMessages, prevMessages ++ [bot_entry (turn_reply o)]);
        SetIsLoading false].
Proof.
  intros [Hidle Hnone] Hvalid.
  destruct w as [[ms inp busy sel] pend lg]; simpl in *; subst.
  unfold run, turn; simpl.
  unfold Frontend.sendMessage; cbn [input]; rewrite (ToBoolean_trim _ Hvalid); cbn.
  unfold turn_reply, turn_error.
  destruct o as [response|error]; cbn; [|turn_log_done].
  destruct (ok response) eqn:Hok; cbn; [|turn_log_done].
  destruct (json_settles response) as [data|error]; cbn; [|turn_log_done].
  destruct (member_response data) as [v|error]; cbn; turn_log_done.
Qed.

(** X6. The status decides whether the body is read.  When [fetch] is
    fulfilled with a status in 200-299 the page stays busy, with the
    transcript and the log as the submit left them, until
    [response.json()] is settled.  With any other status the turn is over at
    once: the body is never read, the error written to the console is
    [Error("Erro de HTTP: " + status)], and the bot entry is the apology. *)
Theorem status_decides_whether_body_is_read (w : World) (response : Response) :
  Idle w →
  trim (input (state w)) ≠ [] →
  let w0 := step FrontendApp w Click in
  let w1 := run FrontendApp w0 [FetchSettled 0 (inl response)] in
  if ok response
  then isLoading (state w1) = true
       ∧ messages (state w1) = messages (state w) ++ [user_entry (input (state w))]
       ∧ log w1 = log w0
       ∧ ∃ k, pending w1 = [OnJson response k]
  else isLoading (state w1) = false
       ∧ messages (state w1) =
           messages (state w) ++ [user_entry (input (state w)); bot_entry (String apology)]
       ∧ log w1 = log w0 ++
           [ConsoleError (js "Erro ao enviar mensagem:")
              (Error (js "Erro de HTTP: " ++ js (pretty (status response))));
            SetMessages (λ prevMessages, prevMessages ++ [bot_entry (String apology)]);
            SetIsLoading false]
       ∧ pending w1 = [].
Proof.
  intros [Hidle Hnone] Hvalid w0 w1. subst w0 w1.
  destruct w as [[ms inp busy sel] pend lg]; simpl in *; subst.
  unfold run; simpl.
  unfold Frontend.sendMessage; cbn [input]; rewrite (ToBoolean_trim _ Hvalid); cbn.
  destruct (ok response) eqn:Hok; cbn.
  - split; [done|]. split; [done|]. split; [done|]. by eexists.
  - split; [done|]. split; [by rewrite <- app_assoc|].
    split; [by rewrite <- !app_assoc|done].
Qed.

Lemma status_decides_whether_body_is_read_witness :
  let w := typed (js "Hello") in
  let response := {| status := 404; json_settles := inl (Object []) |} in
  let w0 := step FrontendApp w Click in
  let w1 := run FrontendApp w0 [FetchSettled 0 (inl response)] in
  if ok response
  then isLoading (state w1) = true
       ∧ messages (state w1) = messages (state w) ++ [user_entry (input (state w))]
       ∧ log w1 = log w0
       ∧ ∃ k, pending w1 = [OnJson response k]
  else isLoading (state w1) = false
       ∧ messages (state w1) =
           messages (state w) ++ [user_entry (input (state w)); bot_entry (String apology)]
       ∧ log w1 = log w0 ++
           [ConsoleError (js "Erro ao enviar mensagem:")
              (Error (js "Erro de HTTP: " ++ js (pretty (status response))));
            SetMessages (λ prevMessages, prevMessages ++ [bot_entry (String apology)]);
            SetIsLoading false]
       ∧ pending w1 = [].
Proof.
  apply (status_decides_whether_body_is_read (typed (js "Hello"))
           {| status := 404; json_settles := inl (Object []) |}).
  - split; reflexivity.
  - vm_compute. discriminate.
Defined.

(** The error of a 404 reads "Erro de HTTP: 404". *)
Example http_error_message :
  turn_error (inl {| status := 404; json_settles := inl (Object []) |})
  = Some (Error (js "Erro de HTTP: 404")).
Proof. reflexivity. Qed.

(** X7. A turn writes to the console exactly when it fails, once, the
    label and the error itself (the rejection, the HTTP error or the
    TypeError); and whenever it does, the bot entry is the apology. *)
Theorem failure_is_logged_once (w : World) (o : Response + JsError) :
  Idle w →
  trim (input (state w)) ≠ [] →
  let w' := run FrontendApp w (turn o) in
  filter is_console (log w') =
    filter is_console (log w)
    ++ match turn_error o with
       | Some error => [ConsoleError (js "Erro ao enviar mensagem:") error]
       | None => []
       end
  ∧ (is_Some (turn_error o) → turn_reply o = String apology)
  ∧ (transport_error o = true → is_Some (turn_error o)).
Proof.
  intros Hidle Hvalid w'. subst w'.
  rewrite (turn_log w o Hidle Hvalid).
  destruct (submit_effects w (proj1 Hidle) Hvalid) as (_ & _ & ->).
  split; [|split].
  - rewrite !filter_app. cbn. rewrite app_nil_r.
    destruct (turn_error o); cbn; by rewrite ?app_nil_r.
  - unfold turn_error, turn_reply. destruct o as [response|error]; [|done].
    destruct (ok response); [|done].
    destruct (json_settles response) as [data|error]; [|done].
    destruct (member_response data); [|done]. by intros [? ?].
  - unfold turn_error, transport_error. destruct o as [response|error]; [|done].
    destruct (ok response); [|done].
    destruct (json_settles response) as [data|error]; done.
Qed.

Lemma failure_is_logged_once_witness :
  let w := typed (js "Hello") in
  let o := inr (TypeError (js "Failed to fetch")) in
  let w' := run FrontendApp w (turn o) in
  filter is_console (log w') =
    filter is_console (log w)
    ++ match turn_error o with
       | Some error => [ConsoleError (js "Erro ao enviar mensagem:") error]
       | None => []
       end
  ∧ (is_Some (turn_error o) → turn_reply o = String apology)
  ∧ (transport_error o = true → is_Some (turn_error o)).
Proof.
  apply (failure_is_logged_once (typed (js "Hello"))
           (inr (TypeError (js "Failed to fetch")))).
  - split; reflexivity.
  - vm_compute. discriminate.
Defined.

(** X8. The success path.  When the status is a success and the body is an
    object with a member [response] that React can render (a string, as the
    backend is meant to send, or a number, a boolean, [null], an array of
    such), the bot entry carries that member as it is (of several members
    of that name the last one), the page is idle again and renders as it
    did before, nothing is written to the console and no second request is
    issued. *)
Theorem reply_is_shown_verbatim
    (w : World) (response : Response)
    (members : list (jsstring * JsVal)) (reply : JsVal) :
  Idle w →
  trim (input (state w)) ≠ [] →
  ok response = true →
  json_settles response = inl (Object members) →
  own_property (js "response") members = Some reply →
  is_Some (React_child reply) →
  let w' := run FrontendApp w (turn (inl response)) in
  messages (state w') =
    messages (state w) ++ [user_entry (input (state w)); bot_entry reply]
  ∧ Idle w'
  ∧ renders (FrontendMarkup.render (state w')) = renders (FrontendMarkup.render (state w))
  ∧ filter is_console (log w') = filter is_console (log w)
  ∧ requests (log w') = requests (log w) ++ [api_request (input (state w))].
Proof.
  intros Hidle Hvalid Hok Hjson Hreply Hchild w'.
  pose proof (turn_resolves w (inl response) Hidle Hvalid) as (Hstate & Hpending & _).
  pose proof (turn_log w (inl response) Hidle Hvalid) as Hlog.
  destruct (submit_effects w (proj1 Hidle) Hvalid) as (_ & _ & Hlog0).
  cbv zeta in Hstate, Hpending, Hlog0. rewrite Hlog0 in Hlog.
  fold w' in Hstate, Hpending, Hlog. clearbody w'.
  unfold turn_reply, turn_error, member_response in Hstate, Hlog.
  rewrite Hok, Hjson, Hreply in Hstate, Hlog. cbn in Hstate, Hlog.
  assert (Hms : messages (state w') =
                  messages (state w) ++ [user_entry (input (state w)); bot_entry reply])
    by (by rewrite Hstate).
  split; [done|].
  split; [split; [by rewrite Hstate|done]|].
  split; [by apply (renders_two_more _ _ _ _ Hms)|].
  rewrite Hlog. split.
  - rewrite !filter_app. cbn. by rewrite !app_nil_r.
  - rewrite !requests_app. cbn. by rewrite !app_nil_r.
Qed.

Lemma reply_is_shown_verbatim_witness :
  let w := typed (js "Hello") in
  let members := [(js "response", String (js "first"));
                  (js "model", String (js "m"));
                  (js "response", String (js "Oi"))] in
  let response := {| status := 200; json_settles := inl (Object members) |} in
  let w' := run FrontendApp w (turn (inl response)) in
  messages (state w') =
    messages (state w) ++ [user_entry (input (state w)); bot_entry (String (js "Oi"))]
  ∧ Idle w'
  ∧ renders (FrontendMarkup.render (state w')) = renders (FrontendMarkup.render (state w))
  ∧ filter is_console (log w') = filter is_console (log w)
  ∧ requests (log w') = requests (log w) ++ [api_request (input (state w))].
Proof.
  apply (reply_is_shown_verbatim (typed (js "Hello"))
           {| status := 200;
              json_settles := inl (Object [(js "response", String (js "first"));
                                           (js "model", String (js "m"));
                                           (js "response", String (js "Oi"))]) |}
           [(js "response", String (js "first"));
            (js "model", String (js "m"));
            (js "response", String (js "Oi"))]
           (String (js "Oi"))).
  - split; reflexivity.
  - vm_compute. discriminate.
  - reflexivity.
  - reflexivity.
  - reflexivity.
  - apply (bool_decide_unpack _). reflexivity.
Defined.

(** ** The file selected *)

Lemma last_choice_snoc (evs : list Event) (ev : Event) :
  last_choice (evs ++ [ev]) = choice ev (last_choice evs).
Proof. unfold last_choice. by rewrite foldl_app. Qed.

Lemma selectedFile_last_choice (evs : list Event) :
  selectedFile (state (run FrontendApp initial_world evs)) = last_choice evs.
Proof.
  induction evs as [|ev evs IH] using rev_ind; [done|].
  rewrite run_snoc, last_choice_snoc, <- IH.
  destruct (run_tracked evs) as (turns & inflight & Hw).
  by destruct (step_tracked turns inflight _ ev Hw) as [Hsel _].
Qed.

(** X11. The file selected is the first file of the last choice that was
    not empty, whatever else happened since (submits and replies leave it
    alone, and closing the file dialog with no file keeps the one before),
    and the line below the drop area shows its name; until a file is chosen
    the line reads "Nenhum arquivo selecionado.". *)
Theorem file_label_shows_last_choice (evs : list Event) :
  let w := run FrontendApp initial_world evs in
  selectedFile (state w) = last_choice evs
  ∧ file_label (FrontendMarkup.render (state w)) =
      match last_choice evs with
      | Some file => js "Arquivo selecionado: " ++ file_name file
      | None => js "Nenhum arquivo selecionado."
      end.
Proof.
  cbv zeta. unfold FrontendMarkup.render; cbn [file_label].
  by rewrite selectedFile_last_choice.
Qed.

(** ** The variant of the Dockerfile *)

Lemma same_turn_requests (l1 l2 : list Request) (texts : list jsstring) :
  Forall2 same_turn_request l1 l2 →
  l1 = api_request <$> texts →
  l2 = localhost_request <$> texts.
Proof.
  intros H. revert texts.
  induction H as [|request1 request2 l1 l2 Hreq _ IH]; intros texts Htexts.
  - by destruct texts.
  - destruct texts as [|t texts]; [done|].
    injection Htexts as Hrequest Hrest.
    destruct Hreq as [t']. injection Hrequest as ->.
    cbn. f_equal. by apply IH.
Qed.

(** X12. The component of the Dockerfile keeps the same discipline: on
    every page reached from its initial one at most one call is in flight,
    one exactly when the busy flag is up, and the requests issued so far
    are, in order, POSTs to http://localhost:8000/chat whose field message
    carries the texts of the user entries of its transcript. *)
Theorem dockerfile_variant_one_request_per_entry (evs : list Event) :
  let w := run DockerfileApp initial_world evs in
  length (pending w) = (if isLoading (state w) then 1 else 0)
  ∧ requests (log w) = localhost_request <$> sent_texts (messages (state w)).
Proof.
  cbv zeta.
  assert (Hrel : related (run FrontendApp initial_world evs)
                         (run DockerfileApp initial_world evs)).
  { apply run_related. by split; cbn; constructor. }
  destruct Hrel as [Hstate Hpending Hrequests _].
  injection Hstate as Hm _ Hl.
  destruct (run_tracked evs) as (turns & inflight & [Hms Hreq _ Hbusy Hpend]).
  split.
  - rewrite <- (Forall2_length _ _ _ Hpending), <- Hl, Hbusy.
    destruct inflight; [by destruct Hpend as (t & -> & _)|by rewrite Hpend].
  - rewrite <- Hm, Hms, sent_texts_history.
    by apply (same_turn_requests _ _ _ Hrequests).
Qed.

(** ** The markup of the pages *)

Lemma render_user_entry (i : nat) (t : jsstring) :
  FrontendMarkup.render_message i (user_entry t) = user_bubble i (String t).
Proof. reflexivity. Qed.

Lemma render_bot_entry (i : nat) (v : JsVal) :
  FrontendMarkup.render_message i (bot_entry v) = bot_bubble i v.
Proof. reflexivity. Qed.

(** X13. On every page reached from the initial one the bubbles alternate
    between the two looks: at even positions the user's (to the right, blue,
    with the user icon), at odd positions the bot's (to the left, slate,
    with the bot icon).  The two tests the markup makes, on 'user' for the
    place and the colour and on 'bot' for the icon, never disagree. *)
Theorem bubbles_alternate (evs : list Event) :
  let s := state (run FrontendApp initial_world evs) in
  bubbles (chat (FrontendMarkup.render s)) =
    imap (λ i m, if Nat.even i then user_bubble i (text m) else bot_bubble i (text m))
         (messages s).
Proof.
  cbv zeta. unfold FrontendMarkup.render; cbn [chat bubbles].
  destruct (run_tracked evs) as (turns & inflight & [Hms _ Hnb _ _]).
  rewrite Hms. apply imap_ext. intros i m Hi.
  pose proof (history_lookup turns inflight i m Hnb Hi) as H.
  destruct (Nat.even i).
  - destruct H as (t & -> & _). apply render_user_entry.
  - destruct H as (v & ->). apply render_bot_entry.
Qed.

(** An entry with any other sender would get the place and the colour of
    the bot and the icon of the user. *)
Example stray_sender_is_dressed_both_ways :
  let b := FrontendMarkup.render_message 0 {| sender := js "system"; text := Null |} in
  row_className b = js "flex justify-start" ∧ avatar b = User.
Proof. by vm_compute. Qed.

(** X14. The invitation to send a message is shown exactly as long as no
    request was ever issued: it goes at the first valid submit and never
    comes back. *)
Theorem placeholder_until_first_submit (evs : list Event) :
  let w := run FrontendApp initial_world evs in
  placeholder (chat (FrontendMarkup.render (state w)))
  = bool_decide (requests (log w) = []).
Proof.
  cbv zeta. unfold FrontendMarkup.render; cbn [chat placeholder].
  destruct (run_tracked evs) as (turns & inflight & [Hms Hreq _ Hbusy _]).
  rewrite Hms, Hreq, Hbusy.
  destruct turns as [|[t v] turns]; [by destruct inflight|].
  rewrite transcript_cons. by destruct inflight.
Qed.

(** X15. Whether the page still renders after a turn is decided by the
    reply alone: the user entry and the apology are strings, which React
    renders as text, and so are numbers, while [undefined], [null] and
    booleans render nothing; a reply that is an object, or an array with an
    object in it, makes React throw when it renders the entry. *)
Theorem reply_decides_whether_page_renders (w : World) (o : Response + JsError) :
  Idle w →
  trim (input (state w)) ≠ [] →
  renders (FrontendMarkup.render (state (run FrontendApp w (turn o))))
  = renders (FrontendMarkup.render (state w))
    && bool_decide (is_Some (React_child (turn_reply o))).
Proof.
  intros Hidle Hvalid.
  destruct (turn_resolves w o Hidle Hvalid) as (Hstate & _).
  cbv zeta in Hstate. rewrite !renders_messages, Hstate. cbn [messages].
  rewrite forallb_app. cbn. by rewrite andb_true_r.
Qed.

Lemma reply_decides_whether_page_renders_witness :
  let o := inl {| status := 200;
                  json_settles :=
                    inl (Object [(js "response",
                                  Object [(js "text", String (js "Oi"))])]) |} in
  renders (FrontendMarkup.render (state (run FrontendApp (typed (js "Hello")) (turn o))))
  = renders (FrontendMarkup.render (state (typed (js "Hello"))))
    && bool_decide (is_Some (React_child (turn_reply o))).
Proof.
  apply (reply_decides_whether_page_renders (typed (js "Hello"))
           (inl {| status := 200;
                   json_settles :=
                     inl (Object [(js "response",
                                   Object [(js "text", String (js "Oi"))])]) |})).
  - split; reflexivity.
  - vm_compute. discriminate.
Defined.

(** A reply that is an object: the page does not render any more. *)
Example object_reply_breaks_the_page :
  renders (FrontendMarkup.render (state (run FrontendApp (typed (js "Hello"))
    (turn (inl {| status := 200;
                  json_settles :=
                    inl (Object [(js "response",
                                  Object [(js "text", String (js "Oi"))])]) |})))))
  = false.
Proof. reflexivity. Qed.

(** X16. Started with the same text and fed the same events, the two
    components render the same chat column: the same invitation, bubbles,
    typing indicator, input value and disabled controls. *)
Theorem variants_render_alike (t : jsstring) (evs : list Event) :
  chat (FrontendMarkup.render (state (run FrontendApp (typed t) evs)))
  = DockerfileMarkup.render (state (run DockerfileApp (typed t) evs)).
Proof.
  assert (Hrel : related (run FrontendApp (typed t) evs)
                         (run DockerfileApp (typed t) evs)).
  { apply run_related. by split; cbn; constructor. }
  destruct Hrel as [Hstate _ _ _]. injection Hstate as Hm Hi Hl.
  unfold FrontendMarkup.render, DockerfileMarkup.render; cbn [chat].
  by rewrite Hm, Hi, Hl.
Qed.
